(** * Jetson monitoring: the sampling-and-parsing pipeline of [gpumonitoring]

    A shallow embedding of [gpu_module.py] (tokenizer, per-process memory
    parser, dispatcher, zeroing path, one iteration of the sampling loop) and
    of [db_prometheus.py] (the sink's [store]), with the properties of the
    design document proved over it.

    Conventions.
    - Python [str] is [string] (ASCII text), a Python [dict] is an
      association list in insertion order, a Python [set] is a duplicate-free
      list (its iteration order is unspecified in Python; statements about
      sets speak about membership only).
    - A raised exception is the [Raise] constructor of [result].
    - Python's [float] is a parameter ([PyFloat]); nothing here depends on
      floating-point arithmetic. *)

From Stdlib Require Import String Ascii List ZArith Bool Lia Arith.
From Stdlib Require Import DecimalString.
From Stdlib Require DecimalPos DecimalZ.
Import ListNotations.
Open Scope string_scope.
Open Scope list_scope.

Set Implicit Arguments.

(* ================================================================== *)
(** ** Python built-ins used by the program *)
(* ================================================================== *)

Module Py.

(** Exceptions the modelled code can raise. *)
Inductive exn : Type :=
| StopIteration          (* next(it) on an exhausted iterator *)
| ValueError             (* int(s) on a string that is not an integer *)
| IndexError             (* l[i] out of range *)
| CollectError.          (* 'Unable to call tegrastats utility !' and the like *)

Inductive result (A : Type) : Type :=
| Ok (a : A)
| Raise (e : exn).
Arguments Ok {A} a.
Arguments Raise {A} e.

Definition bind {A B} (r : result A) (k : A -> result B) : result B :=
  match r with
  | Ok a => k a
  | Raise e => Raise e
  end.

(** [str.isspace] on ASCII: TAB, LF, VT, FF, CR, FS, GS, RS, US, SPACE. *)
Definition is_space (c : ascii) : bool :=
  let n := nat_of_ascii c in
  ((9 <=? n) && (n <=? 13) || (28 <=? n) && (n <=? 32))%nat.

Definition is_digit (c : ascii) : bool :=
  let n := nat_of_ascii c in ((48 <=? n) && (n <=? 57))%nat.

Definition digit_val (c : ascii) : Z := Z.of_nat (nat_of_ascii c) - 48.

Fixpoint all_chars (p : ascii -> bool) (s : string) : bool :=
  match s with
  | EmptyString => true
  | String c r => p c && all_chars p r
  end.

Fixpoint has_char (c : ascii) (s : string) : bool :=
  match s with
  | EmptyString => false
  | String a r => Ascii.eqb a c || has_char c r
  end.

(** [s.split(c)] for a one-character separator: never empty, keeps empty
    pieces. *)
Fixpoint split (c : ascii) (s : string) : list string :=
  match s with
  | EmptyString => [EmptyString]
  | String a r =>
      if Ascii.eqb a c then EmptyString :: split c r
      else match split c r with
           | h :: t => String a h :: t
           | [] => [String a EmptyString]
           end
  end.

(** [s.split()] : pieces between runs of whitespace, no empty piece. *)
Definition cons_word (w : string) (ws : list string) : list string :=
  match w with EmptyString => ws | _ => w :: ws end.

Fixpoint words (s : string) : string * list string :=
  match s with
  | EmptyString => (EmptyString, [])
  | String c r =>
      let (w, ws) := words r in
      if is_space c then (EmptyString, cons_word w ws) else (String c w, ws)
  end.

Definition split_ws (s : string) : list string :=
  let (w, ws) := words s in cons_word w ws.

(** [s.replace(c, "")] for a one-character [c]. *)
Fixpoint remove_char (c : ascii) (s : string) : string :=
  match s with
  | EmptyString => EmptyString
  | String a r => if Ascii.eqb a c then remove_char c r else String a (remove_char c r)
  end.

(** [sub in s]. *)
Fixpoint contains (sub s : string) : bool :=
  String.prefix sub s ||
  match s with
  | EmptyString => false
  | String _ r => contains sub r
  end.

(** [s[:-1]]. *)
Fixpoint drop_last (s : string) : string :=
  match s with
  | EmptyString => EmptyString
  | String a r => match r with EmptyString => EmptyString | _ => String a (drop_last r) end
  end.

(** [l[1:-1]]. *)
Definition slice_1_m1 {A} (l : list A) : list A := removelast (tl l).

(** [l[i]] with its [IndexError]. *)
Definition index {A} (l : list A) (i : nat) : result A :=
  match nth_error l i with
  | Some a => Ok a
  | None => Raise IndexError
  end.

(** [l[-1]] on the result of [split], which is never empty. *)
Definition last_piece (l : list string) : string := last l EmptyString.

(** [l[0]] on the result of [split]. *)
Definition first_piece (l : list string) : string := hd EmptyString l.

(** [s.lower()] on ASCII. *)
Definition lower_char (c : ascii) : ascii :=
  let n := nat_of_ascii c in
  if ((65 <=? n) && (n <=? 90))%nat then ascii_of_nat (n + 32) else c.

Fixpoint lower (s : string) : string :=
  match s with
  | EmptyString => EmptyString
  | String c r => String (lower_char c) (lower r)
  end.

(** [s.strip()]. *)
Fixpoint lstrip (s : string) : string :=
  match s with
  | EmptyString => EmptyString
  | String c r => if is_space c then lstrip r else s
  end.

Fixpoint rstrip (s : string) : string :=
  match s with
  | EmptyString => EmptyString
  | String c r =>
      match rstrip r with
      | EmptyString => if is_space c then EmptyString else String c EmptyString
      | r' => String c r'
      end
  end.

Definition strip (s : string) : string := rstrip (lstrip s).

(** [int(s)], base 10: surrounding whitespace, an optional sign, then digits
    with single underscores allowed between digits.  The interpreter's
    optional cap on the number of digits is not modelled. *)
Fixpoint int_digits (acc : Z) (after_digit : bool) (s : string) : option Z :=
  match s with
  | EmptyString => if after_digit then Some acc else None
  | String c r =>
      if is_digit c then int_digits (10 * acc + digit_val c) true r
      else if Ascii.eqb c "_" then
             if after_digit then int_digits acc false r else None
           else None
  end.

Definition int (s : string) : result Z :=
  let body := strip s in
  let parsed :=
    match body with
    | String c r =>
        if Ascii.eqb c "+" then int_digits 0 false r
        else if Ascii.eqb c "-" then option_map Z.opp (int_digits 0 false r)
        else int_digits 0 false body
    | EmptyString => None
    end in
  match parsed with
  | Some z => Ok z
  | None => Raise ValueError
  end.

(** [str(z)] for an integer. *)
Definition str (z : Z) : string := NilZero.string_of_int (Z.to_int z).

(** The value of a string of decimal digits. *)
Fixpoint decimal_acc (acc : Z) (s : string) : Z :=
  match s with
  | EmptyString => acc
  | String c r => decimal_acc (10 * acc + digit_val c) r
  end.

Definition decimal (s : string) : Z := decimal_acc 0 s.

End Py.

Import Py.

Notation "x <- c ;; k" := (Py.bind c (fun x => k))
  (at level 61, c at next level, right associativity).
Notation "' p <- c ;; k" := (Py.bind c (fun x => let 'p := x in k))
  (at level 61, p pattern, c at next level, right associativity).

(* ================================================================== *)
(** ** Python dictionaries and sets *)
(* ================================================================== *)

Module Dict.
Section WithValue.
Variable V : Type.

(** A [dict] with [str] keys: the items in insertion order. *)
Definition t := list (string * V).

Definition keys (d : t) : list string := map fst d.

Fixpoint get (k : string) (d : t) : option V :=
  match d with
  | [] => None
  | (k', v) :: r => if String.eqb k' k then Some v else get k r
  end.

(** [k in d]. *)
Definition mem (k : string) (d : t) : bool :=
  match get k d with Some _ => true | None => false end.

(** [d[k] = v]: an existing key keeps its place, a new one goes last. *)
Fixpoint set (k : string) (v : V) (d : t) : t :=
  match d with
  | [] => [(k, v)]
  | (k', v') :: r =>
      if String.eqb k' k then (k, v) :: r else (k', v') :: set k v r
  end.
End WithValue.
End Dict.

(** [s.add(x)] on a set kept as a duplicate-free list. *)
Definition set_add (x : string) (s : list string) : list string :=
  if existsb (String.eqb x) s then s else s ++ [x].

(** [enumerate(l)]. *)
Fixpoint enumerate_from {A} (i : nat) (l : list A) : list (nat * A) :=
  match l with
  | [] => []
  | a :: r => (i, a) :: enumerate_from (S i) r
  end.

Definition enumerate {A} (l : list A) : list (nat * A) := enumerate_from 0 l.

(** The characters of a string, as Python iterates over a [str]. *)
Fixpoint chars (s : string) : list string :=
  match s with
  | EmptyString => []
  | String c r => String c EmptyString :: chars r
  end.

(* ================================================================== *)
(** ** Values that travel from the module to the sink *)
(* ================================================================== *)

(** What the tokenizer stores under a field key: a string, or a list of
    strings (per-core utilisation, per-cluster frequency). *)
Inductive sval : Type :=
| Scalar (s : string)
| Seq (l : list string).

(** The [value] of an event: a parsed string or list, a per-process
    amount ([int]), or the literal [0.0] of the zeroing path. *)
Inductive pyval : Type :=
| VStr (s : string)
| VList (l : list string)
| VInt (z : Z)
| VFloat0.

Definition pyval_of (v : sval) : pyval :=
  match v with Scalar s => VStr s | Seq l => VList l end.

(** Iterating over a stored value: the elements of a list, the characters
    of a string. *)
Definition elements (v : sval) : list string :=
  match v with Seq l => l | Scalar s => chars s end.

(** [float(...)] and the type of its results are parameters. *)
Class PyFloat : Type := {
  float_t : Type;
  float_zero : float_t;                       (* 0.0 *)
  float_of_str : string -> option float_t;    (* float(s); None: ValueError *)
  float_of_int : Z -> option float_t          (* float(n); None: OverflowError *)
}.

Definition float {PF : PyFloat} (v : pyval) : option float_t :=
  match v with
  | VStr s => float_of_str s
  | VInt z => float_of_int z
  | VFloat0 => Some float_zero
  | VList _ => None                            (* TypeError *)
  end.

(** [GpuEvent.to_dict()], restricted to the entries the sink reads.  The
    event always carries [key], [value] and [label]; [index] is there when
    it was passed as a keyword.  [humps.camelize] leaves these one-word
    names as they are. *)
Record msg : Type := {
  msg_key : string;
  msg_value : pyval;
  msg_label : option string;
  msg_index : option Z
}.

Definition GpuEvent (key : string) (value : pyval) (label : string)
  (kwargs : option Z) : msg :=
  {| msg_key := key; msg_value := value; msg_label := Some label;
     msg_index := kwargs |}.

(* ================================================================== *)
(** ** db_prometheus.py *)
(* ================================================================== *)

(** The [help_text] table of [store]. *)
Definition help_text : Dict.t string :=
  [ ("tegrastats_gpu_util", "GPU Utilization (%)");
    ("tegrastats_gpu_freq", "GPU Frequency (Hz)");
    ("tegrastats_gpu_temp", "GPU Temperature (C)");
    ("tegrastats_cpu_temp", "CPU Temperature (C)");
    ("tegrastats_cpu_usage", "CPU Core Utilization (%)");
    ("tegrastats_ram_usage", "RAM Usage (MB)");
    ("tegrastats_emc_util", "EMC Memory BW Utilization (%)");
    ("tegrastats_emc_freq", "EMC Frequency (Hz)");
    ("tegrastats_nvenc_freq", "NVENC Frequency (Hz)");
    ("tegrastats_nvenc1_freq", "NVENC1 Frequency (Hz)");
    ("tegrastats_nvdec_freq", "NVDEC Frequency (Hz)");
    ("tegrastats_nvdec1_freq", "NVDEC1 Frequency (Hz)");
    ("tegrastats_per_process_gpu_mem", "Per-process GPU Memory (KB)") ].

(** The values of the two label dimensions [label] and [index]. *)
Definition labelvalues : Type := (string * string)%type.

Definition labelvalues_eqb (a b : labelvalues) : bool :=
  String.eqb (fst a) (fst b) && String.eqb (snd a) (snd b).

Inductive warning : Type :=
| Unrecognized (metrics_name : string)
| InvalidValue (metrics_name : string) (v : pyval).

Section Sink.
Context {PF : PyFloat}.

(** A gauge of the client library: its help text and one child per label
    tuple, each holding the last value set. *)
Record Gauge : Type := {
  documentation : string;
  children : list (labelvalues * float_t)
}.

Fixpoint child_get (lv : labelvalues) (cs : list (labelvalues * float_t))
  : option float_t :=
  match cs with
  | [] => None
  | (lv', f) :: r => if labelvalues_eqb lv' lv then Some f else child_get lv r
  end.

Fixpoint child_set (lv : labelvalues) (f : float_t)
  (cs : list (labelvalues * float_t)) : list (labelvalues * float_t) :=
  match cs with
  | [] => [(lv, f)]
  | (lv', f') :: r =>
      if labelvalues_eqb lv' lv then (lv, f) :: r else (lv', f') :: child_set lv f r
  end.

(** [gauge.labels(label=..., index=...)]: the child for that label tuple,
    created at the gauge's initial value [0.0] when it is new. *)
Definition labels (g : Gauge) (lv : labelvalues) : Gauge :=
  match child_get lv (children g) with
  | Some _ => g
  | None => {| documentation := documentation g;
               children := child_set lv float_zero (children g) |}
  end.

(** [child.set(f)]. *)
Definition gauge_set (g : Gauge) (lv : labelvalues) (f : float_t) : Gauge :=
  {| documentation := documentation g;
     children := child_set lv f (children g) |}.

(** The sink.  [warnings] is what [logger.warning] received, oldest
    first; [received] is the history of the messages passed to [store],
    oldest first (kept for the statements, the program does not read it). *)
Record DataBaseProm : Type := {
  _metrics_map : Dict.t Gauge;
  warnings : list warning;
  received : list msg
}.

Definition DataBaseProm_init : DataBaseProm :=
  {| _metrics_map := []; warnings := []; received := [] |}.

(** [msg.get("label", "none")] and [msg.get("index", "0")], as the client
    library turns them into label values with [str]. *)
Definition labelvalues_of (m : msg) : labelvalues :=
  (match msg_label m with Some l => l | None => "none" end,
   match msg_index m with Some i => Py.str i | None => "0" end).

Definition store (self : DataBaseProm) (m : msg) : DataBaseProm :=
  let metrics_name := Py.lower (msg_key m) in
  let received' := received self ++ [m] in
  let initialised : option (Dict.t Gauge) :=
    if Dict.mem metrics_name (_metrics_map self) then Some (_metrics_map self)
    else match Dict.get metrics_name help_text with
         | None => None
         | Some help =>
             Some (Dict.set metrics_name
                     {| documentation := help; children := [] |}
                     (_metrics_map self))
         end in
  match initialised with
  | None =>
      {| _metrics_map := _metrics_map self;
         warnings := warnings self ++ [Unrecognized metrics_name];
         received := received' |}
  | Some mm =>
      match Dict.get metrics_name mm with
      | None => (* not reached: the name was just looked up or inserted *)
          {| _metrics_map := mm; warnings := warnings self; received := received' |}
      | Some g =>
          let lv := labelvalues_of m in
          let g := labels g lv in
          match float (msg_value m) with
          | Some f =>
              {| _metrics_map := Dict.set metrics_name (gauge_set g lv f) mm;
                 warnings := warnings self;
                 received := received' |}
          | None =>
              {| _metrics_map := Dict.set metrics_name g mm;
                 warnings := warnings self
                             ++ [InvalidValue metrics_name (msg_value m)];
                 received := received' |}
          end
      end
  end.

(** The value the sink exposes for a series, if the series exists. *)
Definition series (self : DataBaseProm) (name : string) (lv : labelvalues)
  : option float_t :=
  match Dict.get name (_metrics_map self) with
  | Some g => child_get lv (children g)
  | None => None
  end.

End Sink.

(* ================================================================== *)
(** ** gpu_module.py: the tokenizer and the per-process parser *)
(* ================================================================== *)

(** [tegra_stats_buffer]. *)
Definition buffer : Type := Dict.t sval.

(** [next(it)] on an iterator over a list: the cursor is the list of the
    tokens not yet consumed. *)
Definition next (it : list string) : result (string * list string) :=
  match it with
  | [] => Raise StopIteration
  | x :: r => Ok (x, r)
  end.

(** A list comprehension whose body can raise. *)
Fixpoint map_result {A B} (f : A -> result B) (l : list A) : result (list B) :=
  match l with
  | [] => Ok []
  | a :: r => b <- f a ;; bs <- map_result f r ;; Ok (b :: bs)
  end.

(** One call of [_parse_tegra_stats]: the entity returned ([None] when the
    tokens are exhausted), the buffer and the cursor afterwards. *)
Definition _parse_tegra_stats (tegra_stats_buffer : buffer)
  (tegra_stats_iter : list string)
  : result (option string * buffer * list string) :=
  match tegra_stats_iter with
  | [] => Ok (None, tegra_stats_buffer, [])
  | entity :: it =>
    let buf := tegra_stats_buffer in
    '(buf, it) <-
      (if entity =? "RAM" then
         '(ram_info, it) <- next it ;;
         let ram_info := Py.first_piece (Py.split "/" ram_info) in
         Ok (Dict.set entity (Scalar ram_info) buf, it)
       else Ok (buf, it)) ;;
    '(buf, it) <-
      (if entity =? "CPU" then
         '(cpu_info, it) <- next it ;;
         let cpu_info :=
           Py.split "," (Py.remove_char "]" (Py.remove_char "[" cpu_info)) in
         let cpu_info := map (fun e => Py.first_piece (Py.split "%" e)) cpu_info in
         if negb (Dict.mem entity buf)
         then Ok (Dict.set entity (Seq cpu_info) buf, it)
         else Ok (buf, it)
       else Ok (buf, it)) ;;
    '(buf, it) <-
      (if entity =? "EMC_FREQ" then
         '(emc_info, it) <- next it ;;
         let emc_util := Py.first_piece (Py.split "%" emc_info) in
         n <- Py.int (Py.last_piece (Py.split "@" emc_info)) ;;
         let emc_freq := Py.str (n * 1000000) in
         Ok (Dict.set "EMC_FREQ" (Scalar emc_freq)
               (Dict.set "EMC_UTIL" (Scalar emc_util) buf), it)
       else Ok (buf, it)) ;;
    '(buf, it) <-
      (if entity =? "GR3D_FREQ" then
         '(gpu_info, it) <- next it ;;
         let gpu_util := Py.first_piece (Py.split "%" gpu_info) in
         let gpu_freq :=
           Py.split ","
             (Py.remove_char "]"
                (Py.remove_char "[" (Py.last_piece (Py.split "@" gpu_info)))) in
         gpu_freq <-
           map_result (fun g => n <- Py.int g ;; Ok (Py.str (n * 1000000)))
             gpu_freq ;;
         Ok (Dict.set "GPU_FREQ" (Seq gpu_freq)
               (Dict.set "GPU_UTIL" (Scalar gpu_util) buf), it)
       else Ok (buf, it)) ;;
    '(buf, it) <-
      (if existsb (String.eqb entity) ["NVENC"; "NVENC1"; "NVDEC"; "NVDEC1"] then
         '(nv_info, it) <- next it ;;
         if negb (nv_info =? "off") then
           n <- Py.int (Py.last_piece (Py.split "@" nv_info)) ;;
           let nv_info := Py.str (n * 1000000) in
           Ok (Dict.set entity (Scalar nv_info) buf, it)
         else Ok (buf, it)
       else Ok (buf, it)) ;;
    buf <-
      (if Py.contains "GPU@" entity || Py.contains "gpu@" entity then
         piece <- Py.index (Py.split "@" entity) 1 ;;
         let gpu_temp := Py.drop_last piece in
         Ok (Dict.set "GPU_TEMP" (Scalar gpu_temp) buf)
       else Ok buf) ;;
    buf <-
      (if Py.contains "CPU@" entity || Py.contains "cpu@" entity then
         piece <- Py.index (Py.split "@" entity) 1 ;;
         let cpu_temp := Py.drop_last piece in
         Ok (Dict.set "CPU_TEMP" (Scalar cpu_temp) buf)
       else Ok buf) ;;
    Ok (Some entity, buf, it)
  end.

(** The inner [while True] of [_process_gpu_stats_forever]: call
    [_parse_tegra_stats] until it returns [None].  [fuel] bounds the number
    of calls; [None] means the bound was too small ([parse_loop_total]
    shows that one more than the number of tokens is always enough). *)
Fixpoint parse_loop (fuel : nat) (tegra_stats_buffer : buffer)
  (tegra_stats_iter : list string) : option (result buffer) :=
  match fuel with
  | O => None
  | S fuel =>
      match _parse_tegra_stats tegra_stats_buffer tegra_stats_iter with
      | Raise e => Some (Raise e)
      | Ok (None, buf, _) => Some (Ok buf)
      | Ok (Some _, buf, it) => parse_loop fuel buf it
      end
  end.

(** Lines 277-289: split the line on single spaces and run the loop from
    an empty buffer. *)
Definition tokenize_from (buf : buffer) (tegra_stats : string) : result buffer :=
  let tokens := Py.split " " tegra_stats in
  match parse_loop (S (length tokens)) buf tokens with
  | Some r => r
  | None => Raise StopIteration
  end.

Definition tokenize (tegra_stats : string) : result buffer :=
  tokenize_from [] tegra_stats.

(** [_parse_per_process_gpu_stats] on the text left in
    [self.per_process_usage] by the collector. *)
Definition parse_process_info (process_mem_usage : Dict.t Z) (process_info : string)
  : result (Dict.t Z) :=
  let process_info := Py.split_ws process_info in
  amount <- Py.index process_info 3 ;;
  n <- Py.int (Py.drop_last amount) ;;
  name <- Py.index process_info 1 ;;
  Ok (Dict.set name n process_mem_usage).

Fixpoint parse_process_lines (process_mem_usage : Dict.t Z) (lines : list string)
  : result (Dict.t Z) :=
  match lines with
  | [] => Ok process_mem_usage
  | process_info :: rest =>
      d <- parse_process_info process_mem_usage process_info ;;
      parse_process_lines d rest
  end.

Definition _parse_per_process_gpu_stats (per_process_usage : string)
  : result (Dict.t Z) :=
  let lines := Py.slice_1_m1 (Py.split "010" per_process_usage) in
  parse_process_lines [] lines.

(* ================================================================== *)
(** ** gpu_module.py: dispatch, zeroing and the sampling loop *)
(* ================================================================== *)

(** [metric_set]: a [defaultdict(set)] from field key to metric keys. *)
Definition metric_set_t : Type := Dict.t (list string).

(** [metric_set[k]] read without inserting. *)
Definition metric_keys_of (k : string) (ms : metric_set_t) : list string :=
  match Dict.get k ms with Some s => s | None => [] end.

(** [metric_set[k].add(x)]: a missing key is first created with an empty
    set. *)
Definition metric_set_add (k x : string) (ms : metric_set_t) : metric_set_t :=
  Dict.set k (set_add x (metric_keys_of k ms)) ms.

(** What the two collector calls of one tick deliver: the stripped text,
    or the exception they raise. *)
Record tick_env : Type := {
  tegrastats_output : result string;      (* _get_tegra_stats *)
  nvmap_clients_output : result string    (* _get_per_process_gpu_stats *)
}.

Section Monitor.
Context {PF : PyFloat}.

(** The attributes of [GpuModule] that the pipeline reads.  Between the
    collector and the parsers [tegra_stats] and [per_process_usage] hold
    raw text in the program; here the text is passed along directly and
    the attributes hold the parsed values the dispatcher reads. *)
Record GpuModule : Type := {
  db : DataBaseProm;
  metric_set : metric_set_t;
  tegra_stats : buffer;
  per_process_usage : Dict.t Z
}.

Definition GpuModule_init (db0 : DataBaseProm) : GpuModule :=
  {| db := db0; metric_set := []; tegra_stats := []; per_process_usage := [] |}.

Definition with_db (self : GpuModule) (d : DataBaseProm) : GpuModule :=
  {| db := d; metric_set := metric_set self;
     tegra_stats := tegra_stats self;
     per_process_usage := per_process_usage self |}.

Definition with_metric_set (self : GpuModule) (ms : metric_set_t) : GpuModule :=
  {| db := db self; metric_set := ms;
     tegra_stats := tegra_stats self;
     per_process_usage := per_process_usage self |}.

Definition with_tegra_stats (self : GpuModule) (b : buffer) : GpuModule :=
  {| db := db self; metric_set := metric_set self;
     tegra_stats := b;
     per_process_usage := per_process_usage self |}.

Definition with_per_process_usage (self : GpuModule) (u : Dict.t Z) : GpuModule :=
  {| db := db self; metric_set := metric_set self;
     tegra_stats := tegra_stats self;
     per_process_usage := u |}.

Definition store_gpu_event (self : GpuModule) (metric_value : pyval)
  (metric_name metric_key : string) (kwargs : option Z) : GpuModule :=
  let event := GpuEvent metric_key metric_value metric_name kwargs in
  with_db self (store (db self) event).

(** [self.metric_set[k].add(x)]. *)
Definition record_metric (self : GpuModule) (k x : string) : GpuModule :=
  with_metric_set self (metric_set_add k x (metric_set self)).

(** The branch of a field that is dispatched as one event. *)
Definition produce_scalar (self : GpuModule) (v : sval)
  (metric_name metric_key : string) : GpuModule :=
  record_metric
    (store_gpu_event self (pyval_of v) metric_name metric_key None)
    metric_name metric_key.

(** The [GPU_FREQ] branch: one event per cluster. *)
Definition produce_gpu_freq (self : GpuModule) (v : sval) : GpuModule :=
  fold_left
    (fun self '(gpc_id, gpc_freq) =>
       record_metric
         (store_gpu_event self (VStr gpc_freq) "GPU_FREQ" "tegrastats_gpu_freq"
            (Some (Z.of_nat gpc_id)))
         "GPU_FREQ" ("tegrastats_gpu_freq_" ++ Py.str (Z.of_nat gpc_id)))
    (enumerate (elements v)) self.

(** The [CPU] branch: one event per core that is not [off]. *)
Definition produce_cpu (self : GpuModule) (v : sval) : GpuModule :=
  fold_left
    (fun self '(cpu_id, cpu_util) =>
       if negb (cpu_util =? "off") then
         record_metric
           (store_gpu_event self (VStr cpu_util) "CPU" "tegrastats_cpu_usage"
              (Some (Z.of_nat cpu_id)))
           "CPU" ("tegrastats_cpu_usage_" ++ Py.str (Z.of_nat cpu_id))
       else self)
    (enumerate (elements v)) self.

(** The body of the first loop of [_produce_gpu_event] for one item. *)
Definition produce_item (self : GpuModule) (k : string) (v : sval) : GpuModule :=
  let self := if k =? "GPU_UTIL"
              then produce_scalar self v "GPU_UTIL" "tegrastats_gpu_util" else self in
  let self := if k =? "GPU_FREQ" then produce_gpu_freq self v else self in
  let self := if k =? "GPU_TEMP"
              then produce_scalar self v "GPU_TEMP" "tegrastats_gpu_temp" else self in
  let self := if k =? "CPU_TEMP"
              then produce_scalar self v "CPU_TEMP" "tegrastats_cpu_temp" else self in
  let self := if k =? "CPU" then produce_cpu self v else self in
  let self := if k =? "RAM"
              then produce_scalar self v "RAM" "tegrastats_ram_usage" else self in
  let self := if k =? "EMC_FREQ"
              then produce_scalar self v "EMC_FREQ" "tegrastats_emc_freq" else self in
  let self := if k =? "EMC_UTIL"
              then produce_scalar self v "EMC_UTIL" "tegrastats_emc_util" else self in
  let self := if k =? "NVENC"
              then produce_scalar self v "NVENC" "tegrastats_nvenc_freq" else self in
  let self := if k =? "NVENC1"
              then produce_scalar self v "NVENC1" "tegrastats_nvenc1_freq" else self in
  let self := if k =? "NVDEC"
              then produce_scalar self v "NVDEC" "tegrastats_nvdec_freq" else self in
  let self := if k =? "NVDEC1"
              then produce_scalar self v "NVDEC1" "tegrastats_nvdec1_freq" else self in
  self.

(** The body of the second loop, over the per-process amounts. *)
Definition produce_process (self : GpuModule) (k : string) (v : Z) : GpuModule :=
  record_metric
    (store_gpu_event self (VInt v) k "tegrastats_per_process_gpu_mem" None)
    k "tegrastats_per_process_gpu_mem".

Definition _produce_gpu_event (self : GpuModule) : GpuModule :=
  let self :=
    fold_left (fun self '(k, v) => produce_item self k v) (tegra_stats self) self in
  fold_left (fun self '(k, v) => produce_process self k v)
    (per_process_usage self) self.

(** [_nullify_gpu_data]; [store_gpu_event] does not raise, so the
    [except] branch is never taken. *)
Definition nullify_keys (self : GpuModule) (metric_name : string)
  (metric_keys : list string) : GpuModule :=
  fold_left
    (fun self metric_key => store_gpu_event self VFloat0 metric_name metric_key None)
    metric_keys self.

Definition _nullify_gpu_data (self : GpuModule) : GpuModule :=
  fold_left
    (fun self '(metric_name, metric_keys) =>
       nullify_keys self metric_name metric_keys)
    (metric_set self) self.

(** One iteration of the outer [while True] of
    [_process_gpu_stats_forever], after the sleep.  Each [Raise] branch is
    an inner [except ... raise e] followed by the outer
    [except Exception: self._nullify_gpu_data()]. *)
Definition tick (self : GpuModule) (env : tick_env) : GpuModule :=
  match tegrastats_output env with
  | Raise _ => _nullify_gpu_data self
  | Ok line =>
    match tokenize line with
    | Raise _ => _nullify_gpu_data self
    | Ok tegra_stats_buffer =>
      let self := with_tegra_stats self tegra_stats_buffer in
      match nvmap_clients_output env with
      | Raise _ => _nullify_gpu_data self
      | Ok text =>
        match _parse_per_process_gpu_stats text with
        | Raise _ => _nullify_gpu_data self
        | Ok process_mem_usage =>
          let self := with_per_process_usage self process_mem_usage in
          _produce_gpu_event self
        end
      end
    end
  end.

(** The loop over the ticks of a finite prefix of the run. *)
Definition _process_gpu_stats (self : GpuModule) (envs : list tick_env)
  : GpuModule :=
  fold_left tick envs self.

(** The stages before dispatch, as one result: the parsed sample of a
    tick, or the exception that makes the tick fail. *)
Definition sample (env : tick_env) : result (buffer * Dict.t Z) :=
  line <- tegrastats_output env ;;
  tegra_stats_buffer <- tokenize line ;;
  text <- nvmap_clients_output env ;;
  process_mem_usage <- _parse_per_process_gpu_stats text ;;
  Ok (tegra_stats_buffer, process_mem_usage).

End Monitor.

(** A concrete [float] for evaluating the program on examples: integers
    written in decimal are read as themselves, anything else is refused. *)
Definition ExampleFloat : PyFloat :=
  {| float_t := Z;
     float_zero := 0%Z;
     float_of_str := fun s => match Py.int s with Ok z => Some z | Raise _ => None end;
     float_of_int := fun z => Some z |}.

(** Inputs for the examples. *)
Definition nl : string := String "010" EmptyString.

(** A memory text with a header, one process and the closing total. *)
Definition clients_text : string :=
  ("Client Process PID Size" ++ nl ++
   "user rosie-perceptio 27278 753528K" ++ nl ++
   "total 753528K")%string.

(** The same with a process line of three fields. *)
Definition clients_text_short : string :=
  ("Client Process PID Size" ++ nl ++
   "user rosie-perceptio 753528K" ++ nl ++
   "total 753528K")%string.

(** A line of the diagnostics utility. *)
Definition tegrastats_line : string :=
  "RAM 2448/3956MB (lfb 2x1MB) SWAP 0/1978MB CPU [25%@102,off,30%@204] EMC_FREQ 12%@1600 GR3D_FREQ 45%@[204,204] NVENC off NVDEC 716 PLL@27C CPU@29.5C GPU@28C GPU 311/311 CPU 621/621".

(** A tick whose line has per-cluster frequencies and per-core loads,
    followed by a tick whose collection fails. *)
Definition env_indexed : tick_env :=
  {| tegrastats_output :=
       Ok "GR3D_FREQ 45%@[204,204] CPU [10%@102,off,30%@204]";
     nvmap_clients_output := Ok clients_text |}.

Definition env_failing : tick_env :=
  {| tegrastats_output := Raise CollectError;
     nvmap_clients_output := Ok clients_text |}.

(** A tick with a temperature token that has no number. *)
Definition env_bad_value : tick_env :=
  {| tegrastats_output := Ok "GPU@C RAM 12/34MB";
     nvmap_clients_output := Ok clients_text |}.

Definition sink_init : @DataBaseProm ExampleFloat := DataBaseProm_init.

Definition module_init : @GpuModule ExampleFloat := GpuModule_init sink_init.

(* ================================================================== *)
(** ** The writes of the tokenizer, for the proofs *)
(* ================================================================== *)

(** What one call of [_parse_tegra_stats] does to the buffer: plain
    assignments, and the guarded assignment of the [CPU] branch. *)
Inductive write : Type :=
| Put (k : string) (v : sval)           (* buf[k] = v *)
| PutNew (k : string) (v : sval).       (* if k not in buf: buf[k] = v *)

Definition write_key (w : write) : string :=
  match w with Put k _ | PutNew k _ => k end.

Definition apply_write (buf : buffer) (w : write) : buffer :=
  match w with
  | Put k v => Dict.set k v buf
  | PutNew k v => if negb (Dict.mem k buf) then Dict.set k v buf else buf
  end.

Definition apply_writes (ws : list write) (buf : buffer) : buffer :=
  fold_left apply_write ws buf.

(** The effect of a write on the value found under one key. *)
Definition write_at (k : string) (s : option sval) (w : write) : option sval :=
  match w with
  | Put k' v => if String.eqb k' k then Some v else s
  | PutNew k' v =>
      if String.eqb k' k then match s with None => Some v | Some _ => s end else s
  end.

(** The writes of one call, read off the tokens alone. *)
Definition step_writes (tegra_stats_iter : list string)
  : result (option string * list write * list string) :=
  match tegra_stats_iter with
  | [] => Ok (None, [], [])
  | entity :: it =>
    '(w1, it) <-
      (if entity =? "RAM" then
         '(ram_info, it) <- next it ;;
         Ok ([Put entity (Scalar (Py.first_piece (Py.split "/" ram_info)))], it)
       else Ok ([], it)) ;;
    '(w2, it) <-
      (if entity =? "CPU" then
         '(cpu_info, it) <- next it ;;
         let cpu_info :=
           Py.split "," (Py.remove_char "]" (Py.remove_char "[" cpu_info)) in
         let cpu_info := map (fun e => Py.first_piece (Py.split "%" e)) cpu_info in
         Ok ([PutNew entity (Seq cpu_info)], it)
       else Ok ([], it)) ;;
    '(w3, it) <-
      (if entity =? "EMC_FREQ" then
         '(emc_info, it) <- next it ;;
         n <- Py.int (Py.last_piece (Py.split "@" emc_info)) ;;
         Ok ([Put "EMC_UTIL" (Scalar (Py.first_piece (Py.split "%" emc_info)));
              Put "EMC_FREQ" (Scalar (Py.str (n * 1000000)))], it)
       else Ok ([], it)) ;;
    '(w4, it) <-
      (if entity =? "GR3D_FREQ" then
         '(gpu_info, it) <- next it ;;
         gpu_freq <-
           map_result (fun g => n <- Py.int g ;; Ok (Py.str (n * 1000000)))
             (Py.split ","
                (Py.remove_char "]"
                   (Py.remove_char "[" (Py.last_piece (Py.split "@" gpu_info))))) ;;
         Ok ([Put "GPU_UTIL" (Scalar (Py.first_piece (Py.split "%" gpu_info)));
              Put "GPU_FREQ" (Seq gpu_freq)], it)
       else Ok ([], it)) ;;
    '(w5, it) <-
      (if existsb (String.eqb entity) ["NVENC"; "NVENC1"; "NVDEC"; "NVDEC1"] then
         '(nv_info, it) <- next it ;;
         if negb (nv_info =? "off") then
           n <- Py.int (Py.last_piece (Py.split "@" nv_info)) ;;
           Ok ([Put entity (Scalar (Py.str (n * 1000000)))], it)
         else Ok ([], it)
       else Ok ([], it)) ;;
    w6 <-
      (if Py.contains "GPU@" entity || Py.contains "gpu@" entity then
         piece <- Py.index (Py.split "@" entity) 1 ;;
         Ok [Put "GPU_TEMP" (Scalar (Py.drop_last piece))]
       else Ok []) ;;
    w7 <-
      (if Py.contains "CPU@" entity || Py.contains "cpu@" entity then
         piece <- Py.index (Py.split "@" entity) 1 ;;
         Ok [Put "CPU_TEMP" (Scalar (Py.drop_last piece))]
       else Ok []) ;;
    Ok (Some entity, w1 ++ w2 ++ w3 ++ w4 ++ w5 ++ w6 ++ w7, it)
  end.

(** The writes of the whole loop. *)
Fixpoint loop_writes (fuel : nat) (tegra_stats_iter : list string)
  : option (result (list write)) :=
  match fuel with
  | O => None
  | S fuel =>
      match step_writes tegra_stats_iter with
      | Raise e => Some (Raise e)
      | Ok (None, ws, _) => Some (Ok ws)
      | Ok (Some _, ws, it) =>
          match loop_writes fuel it with
          | Some (Ok ws') => Some (Ok (ws ++ ws'))
          | r => r
          end
      end
  end.


(** The field keys of the design: what the tokenizer can store and the
    dispatcher recognises. *)
Definition field_keys : list string :=
  ["GPU_UTIL"; "GPU_FREQ"; "GPU_TEMP"; "CPU_TEMP"; "CPU"; "RAM"; "EMC_FREQ";
   "EMC_UTIL"; "NVENC"; "NVENC1"; "NVDEC"; "NVDEC1"].

(* ================================================================== *)
(** ** The dispatch table of the design, for the statements *)
(* ================================================================== *)

(** The fields dispatched as one observation, with their metric names. *)
Definition scalar_metric_key : Dict.t string :=
  [ ("GPU_UTIL", "tegrastats_gpu_util");
    ("GPU_TEMP", "tegrastats_gpu_temp");
    ("CPU_TEMP", "tegrastats_cpu_temp");
    ("RAM", "tegrastats_ram_usage");
    ("EMC_FREQ", "tegrastats_emc_freq");
    ("EMC_UTIL", "tegrastats_emc_util");
    ("NVENC", "tegrastats_nvenc_freq");
    ("NVENC1", "tegrastats_nvenc1_freq");
    ("NVDEC", "tegrastats_nvdec_freq");
    ("NVDEC1", "tegrastats_nvdec1_freq") ].

(** One observation per position, labelled with the position. *)
Definition indexed_events (metric_key metric_name : string)
  (l : list (nat * string)) : list msg :=
  map (fun '(i, x) => GpuEvent metric_key (VStr x) metric_name (Some (Z.of_nat i))) l.

(** What the dispatcher records for them: the metric key with the position
    appended. *)
Definition indexed_records (metric_name metric_key_ : string)
  (l : list (nat * string)) : list (string * string) :=
  map (fun '(i, _) => (metric_name, (metric_key_ ++ Py.str (Z.of_nat i))%string)) l.

(** The cores of a [CPU] value that are not [off], with their positions. *)
Definition cores_on (v : sval) : list (nat * string) :=
  filter (fun '(_, x) => negb (x =? "off")) (enumerate (elements v)).

(** The observations one field of the sample gives rise to. *)
Definition events_of_item (k : string) (v : sval) : list msg :=
  if k =? "GPU_FREQ" then
    indexed_events "tegrastats_gpu_freq" "GPU_FREQ" (enumerate (elements v))
  else if k =? "CPU" then
    indexed_events "tegrastats_cpu_usage" "CPU" (cores_on v)
  else match Dict.get k scalar_metric_key with
       | Some metric_key => [GpuEvent metric_key (pyval_of v) k None]
       | None => []
       end.

(** The (field key, metric key) pairs one field adds to [metric_set]. *)
Definition records_of_item (k : string) (v : sval) : list (string * string) :=
  if k =? "GPU_FREQ" then
    indexed_records "GPU_FREQ" "tegrastats_gpu_freq_" (enumerate (elements v))
  else if k =? "CPU" then
    indexed_records "CPU" "tegrastats_cpu_usage_" (cores_on v)
  else match Dict.get k scalar_metric_key with
       | Some metric_key => [(k, metric_key)]
       | None => []
       end.

Definition process_event (kv : string * Z) : msg :=
  GpuEvent "tegrastats_per_process_gpu_mem" (VInt (snd kv)) (fst kv) None.

Definition process_record (kv : string * Z) : string * string :=
  (fst kv, "tegrastats_per_process_gpu_mem").

(** The observations of a whole sample, in dispatch order. *)
Definition dispatch_events (buf : buffer) (usage : Dict.t Z) : list msg :=
  flat_map (fun kv => events_of_item (fst kv) (snd kv)) buf
  ++ map process_event usage.

Definition dispatch_records (buf : buffer) (usage : Dict.t Z)
  : list (string * string) :=
  flat_map (fun kv => records_of_item (fst kv) (snd kv)) buf
  ++ map process_record usage.

(** The observations of the zeroing path: one per recorded pair, with the
    field key as [label], the recorded metric key as [key], value [0.0]
    and no [index]. *)
Definition zero_event (metric_name metric_key : string) : msg :=
  GpuEvent metric_key VFloat0 metric_name None.

Definition zero_events (ms : metric_set_t) : list msg :=
  flat_map (fun kv => map (zero_event (fst kv)) (snd kv)) ms.

(** [ms'] has every field key and every recorded metric key of [ms]. *)
Definition grows (ms ms' : metric_set_t) : Prop :=
  forall k,
    (Dict.mem k ms = true -> Dict.mem k ms' = true) /\
    (forall x, In x (metric_keys_of k ms) -> In x (metric_keys_of k ms')).

Section Effect.
Context {PF : PyFloat}.

(** The metric name is known to the sink: registered already, or in the
    help table. *)
Definition recognized (d : DataBaseProm) (metrics_name : string) : bool :=
  Dict.mem metrics_name (_metrics_map d) || Dict.mem metrics_name help_text.

(** Every gauge the sink has registered comes from the help table. *)
Definition sink_ok (d : DataBaseProm) : Prop :=
  forall name, Dict.mem name (_metrics_map d) = true ->
               Dict.mem name help_text = true.

(** The module after sending [evs] to the sink and recording [recs]. *)
Definition effect (evs : list msg) (recs : list (string * string))
  (self : GpuModule) : GpuModule :=
  {| db := fold_left store evs (db self);
     metric_set :=
       fold_left (fun ms kx => metric_set_add (fst kx) (snd kx) ms) recs
         (metric_set self);
     tegra_stats := tegra_stats self;
     per_process_usage := per_process_usage self |}.

(** What one tick sends to the sink: the observations of the sample when
    every stage before dispatch succeeded, the zeros of the recorded pairs
    otherwise. *)
Definition tick_events (self : GpuModule) (env : tick_env) : list msg :=
  match sample env with
  | Ok (buf, usage) => dispatch_events buf usage
  | Raise _ => zero_events (metric_set self)
  end.

(** What one tick records. *)
Definition tick_records (env : tick_env) : list (string * string) :=
  match sample env with
  | Ok (buf, usage) => dispatch_records buf usage
  | Raise _ => []
  end.

End Effect.

(* ================================================================== *)
(** ** Further notions for the statements *)
(* ================================================================== *)

Definition is_seq (v : sval) : bool :=
  match v with Seq _ => true | Scalar _ => false end.

(** The shape of a sample: only field keys, a list under [CPU] and
    [GPU_FREQ], a string under every other key. *)
Definition well_shaped (buf : buffer) : Prop :=
  forall k v, In (k, v) buf ->
              In k field_keys /\
              is_seq v = (String.eqb k "CPU" || String.eqb k "GPU_FREQ").

Definition write_value (w : write) : sval :=
  match w with Put _ v | PutNew _ v => v end.

Definition write_shaped (w : write) : Prop :=
  In (write_key w) field_keys /\
  is_seq (write_value w)
  = (String.eqb (write_key w) "CPU" || String.eqb (write_key w) "GPU_FREQ").

(** A [defaultdict(set)] kept as lists: no key twice, no element twice. *)
Definition metric_set_ok (ms : metric_set_t) : Prop :=
  NoDup (Dict.keys ms) /\ forall k ks, In (k, ks) ms -> NoDup ks.

(** The message is for the series [name], [lv] of the sink. *)
Definition targets (m : msg) (name : string) (lv : labelvalues) : bool :=
  String.eqb (Py.lower (msg_key m)) name && labelvalues_eqb (labelvalues_of m) lv.

(** No recorded metric key is, in lower case, the name of one of the two
    indexed gauges. *)
Definition no_indexed_name (ms : metric_set_t) : Prop :=
  forall k ks x, In (k, ks) ms -> In x ks ->
                 Py.lower x <> "tegrastats_gpu_freq" /\
                 Py.lower x <> "tegrastats_cpu_usage".

Section SinkInvariant.
Context {PF : PyFloat}.

(** Each name is registered once, with the help text of the table. *)
Definition registered_from_table (d : DataBaseProm) : Prop :=
  NoDup (Dict.keys (_metrics_map d)) /\
  forall name g, Dict.get name (_metrics_map d) = Some g ->
                 Dict.get name help_text = Some (documentation g).

End SinkInvariant.

(* ================================================================== *)
(** ** Facts about the built-ins *)
(* ================================================================== *)

Module PyFacts.

Lemma split_not_nil (c : ascii) (s : string) : Py.split c s <> [].
Proof.
  destruct s as [|a r]; simpl; [discriminate|].
  destruct (Ascii.eqb a c); [discriminate|].
  destruct (Py.split c r); discriminate.
Qed.

(** A string without the separator is one piece. *)
Lemma split_no_sep (c : ascii) (s : string) :
  Py.has_char c s = false -> Py.split c s = [s].
Proof.
  induction s as [|a r IH]; simpl; intros H; [reflexivity|].
  apply orb_false_iff in H. destruct H as [Ha Hr].
  rewrite Ha, (IH Hr). reflexivity.
Qed.

(** [(u + c + r).split(c) == u.split(c) + r.split(c)]. *)
Lemma split_app (c : ascii) (u r : string) :
  Py.split c (u ++ String c r)%string = Py.split c u ++ Py.split c r.
Proof.
  induction u as [|a u IH]; simpl.
  - rewrite Ascii.eqb_refl. reflexivity.
  - destruct (Ascii.eqb a c); [now rewrite IH|].
    rewrite IH. pose proof (split_not_nil c u) as Hne.
    destruct (Py.split c u); [congruence|reflexivity].
Qed.

Lemma first_piece_app (c : ascii) (u r : string) :
  Py.has_char c u = false ->
  Py.first_piece (Py.split c (u ++ String c r)%string) = u.
Proof.
  intros H. rewrite split_app, (split_no_sep _ _ H). reflexivity.
Qed.

Lemma last_app_not_nil {A} (l1 l2 : list A) (d : A) :
  l2 <> [] -> last (l1 ++ l2) d = last l2 d.
Proof.
  intros H. induction l1 as [|x l1 IH]; [reflexivity|].
  simpl. rewrite IH. destruct (l1 ++ l2) eqn:E; [|reflexivity].
  apply app_eq_nil in E. destruct E; congruence.
Qed.

Lemma last_piece_app (c : ascii) (u r : string) :
  Py.has_char c r = false ->
  Py.last_piece (Py.split c (u ++ String c r)%string) = r.
Proof.
  intros H. unfold Py.last_piece. rewrite split_app.
  rewrite last_app_not_nil by apply split_not_nil.
  rewrite (split_no_sep _ _ H). reflexivity.
Qed.

Lemma append_assoc (a b c : string) :
  ((a ++ b) ++ c)%string = (a ++ (b ++ c))%string.
Proof. induction a as [|x a IH]; simpl; [reflexivity|now rewrite IH]. Qed.

Lemma append_empty_r (a : string) : (a ++ "")%string = a.
Proof. induction a as [|x a IH]; simpl; [reflexivity|now rewrite IH]. Qed.

Lemma has_char_app (c : ascii) (a b : string) :
  Py.has_char c (a ++ b)%string = Py.has_char c a || Py.has_char c b.
Proof.
  induction a as [|x a IH]; simpl; [reflexivity|].
  rewrite IH. apply orb_assoc.
Qed.

Lemma remove_char_absent (c : ascii) (s : string) :
  Py.has_char c s = false -> Py.remove_char c s = s.
Proof.
  induction s as [|a r IH]; simpl; intros H; [reflexivity|].
  apply orb_false_iff in H. destruct H as [Ha Hr].
  rewrite Ha, (IH Hr). reflexivity.
Qed.

Lemma remove_char_app (c : ascii) (a b : string) :
  Py.remove_char c (a ++ b)%string = (Py.remove_char c a ++ Py.remove_char c b)%string.
Proof.
  induction a as [|x a IH]; simpl; [reflexivity|].
  destruct (Ascii.eqb x c); simpl; now rewrite IH.
Qed.

(** A character that is not a digit does not occur among digits. *)
Lemma digits_has_char (c : ascii) (s : string) :
  Py.is_digit c = false -> Py.all_chars Py.is_digit s = true ->
  Py.has_char c s = false.
Proof.
  intros Hc. induction s as [|a r IH]; simpl; intros H; [reflexivity|].
  apply andb_true_iff in H. destruct H as [Ha Hr].
  rewrite (IH Hr), orb_false_r.
  destruct (Ascii.eqb_spec a c); [subst; congruence|reflexivity].
Qed.

(** Joining with a separator [sep], when neither the separator nor the
    pieces contain [c]. *)
Lemma has_char_concat (c : ascii) (sep : string) (l : list string) :
  Py.has_char c sep = false ->
  Forall (fun s => Py.has_char c s = false) l ->
  Py.has_char c (String.concat sep l) = false.
Proof.
  intros Hsep H. induction H as [|x l Hx Hl IH]; [reflexivity|].
  simpl. destruct l as [|y l]; [exact Hx|].
  rewrite !has_char_app, Hx, Hsep, IH. reflexivity.
Qed.

(** [",".join(l).split(",") == l] for a non-empty [l] of comma-free
    pieces. *)
Lemma split_concat (c : ascii) (l : list string) :
  l <> [] -> Forall (fun s => Py.has_char c s = false) l ->
  Py.split c (String.concat (String c EmptyString) l) = l.
Proof.
  intros Hne H. induction H as [|x l Hx Hl IH]; [congruence|].
  simpl. destruct l as [|y l].
  - now apply split_no_sep.
  - change (x ++ String c EmptyString ++ String.concat (String c EmptyString) (y :: l))%string
      with (x ++ String c (String.concat (String c EmptyString) (y :: l)))%string.
    rewrite split_app, (split_no_sep _ _ Hx), IH by discriminate. reflexivity.
Qed.

Lemma digit_not_space (c : ascii) : Py.is_digit c = true -> Py.is_space c = false.
Proof.
  unfold Py.is_digit, Py.is_space. intros H.
  apply andb_true_iff in H. destruct H as [H1 H2].
  apply Nat.leb_le in H1. apply Nat.leb_le in H2.
  apply orb_false_iff. split; apply andb_false_iff.
  - right. apply Nat.leb_gt. lia.
  - right. apply Nat.leb_gt. lia.
Qed.

Lemma rstrip_digits (s : string) :
  Py.all_chars Py.is_digit s = true -> Py.rstrip s = s.
Proof.
  induction s as [|a r IH]; simpl; intros H; [reflexivity|].
  apply andb_true_iff in H. destruct H as [Ha Hr].
  rewrite (IH Hr). destruct r; [|reflexivity].
  now rewrite (digit_not_space _ Ha).
Qed.

Lemma strip_digits (s : string) :
  Py.all_chars Py.is_digit s = true -> Py.strip s = s.
Proof.
  intros H. unfold Py.strip.
  assert (Py.lstrip s = s) as ->.
  { destruct s as [|a r]; [reflexivity|]. simpl in *.
    apply andb_true_iff in H. destruct H as [Ha _].
    now rewrite (digit_not_space _ Ha). }
  now apply rstrip_digits.
Qed.

Lemma int_digits_all (s : string) (acc : Z) (b : bool) :
  Py.all_chars Py.is_digit s = true ->
  Py.int_digits acc b s =
  match s with
  | EmptyString => if b then Some acc else None
  | _ => Some (Py.decimal_acc acc s)
  end.
Proof.
  revert acc b. induction s as [|a r IH]; intros acc b H; [reflexivity|].
  simpl in *. apply andb_true_iff in H. destruct H as [Ha Hr].
  rewrite Ha, (IH _ _ Hr). destruct r; reflexivity.
Qed.

(** [int] on a non-empty string of digits is its decimal value. *)
Lemma int_digits_string (s : string) :
  s <> EmptyString -> Py.all_chars Py.is_digit s = true ->
  Py.int s = Ok (Py.decimal s).
Proof.
  intros Hne H. unfold Py.int. rewrite (strip_digits _ H).
  destruct s as [|a r]; [congruence|].
  assert (Ha : Py.is_digit a = true) by (simpl in H; now apply andb_true_iff in H).
  destruct (Ascii.eqb_spec a "+") as [->|_]; [discriminate Ha|].
  destruct (Ascii.eqb_spec a "-") as [->|_]; [discriminate Ha|].
  rewrite (int_digits_all _ 0 false H). reflexivity.
Qed.

End PyFacts.

(* ================================================================== *)
(** ** Facts about dictionaries *)
(* ================================================================== *)

Module DictFacts.
Section WithValue.
Variable V : Type.
Implicit Types (d : Dict.t V) (k : string) (v : V).

Lemma get_set k k' v d :
  Dict.get k' (Dict.set k v d) = if String.eqb k k' then Some v else Dict.get k' d.
Proof.
  induction d as [|[k0 v0] d IH]; simpl.
  - reflexivity.
  - destruct (String.eqb_spec k0 k) as [->|Hk0]; simpl.
    + destruct (String.eqb k k'); reflexivity.
    + rewrite IH. destruct (String.eqb_spec k0 k') as [->|]; [|reflexivity].
      destruct (String.eqb_spec k k'); [congruence|reflexivity].
Qed.

Lemma get_set_same k v d : Dict.get k (Dict.set k v d) = Some v.
Proof. now rewrite get_set, String.eqb_refl. Qed.

Lemma get_set_other k k' v d :
  k <> k' -> Dict.get k' (Dict.set k v d) = Dict.get k' d.
Proof. intros H. rewrite get_set. now destruct (String.eqb_spec k k'). Qed.

Lemma mem_in_keys k d : Dict.mem k d = true <-> In k (Dict.keys d).
Proof.
  unfold Dict.mem. induction d as [|[k0 v0] d IH]; simpl.
  - split; [discriminate|tauto].
  - destruct (String.eqb_spec k0 k) as [->|Hne].
    + split; auto.
    + rewrite IH. split; [auto|]. intros [H|H]; [congruence|exact H].
Qed.

Lemma mem_false_not_in k d : Dict.mem k d = false <-> ~ In k (Dict.keys d).
Proof.
  rewrite <- mem_in_keys. destruct (Dict.mem k d); split; congruence.
Qed.

Lemma get_in k v d : Dict.get k d = Some v -> In (k, v) d.
Proof.
  induction d as [|[k0 v0] d IH]; simpl; [discriminate|].
  destruct (String.eqb_spec k0 k) as [->|]; intros H.
  - left. congruence.
  - right. auto.
Qed.

(** A new key goes last, an old one keeps its place. *)
Lemma keys_set k v d :
  Dict.keys (Dict.set k v d) =
  if Dict.mem k d then Dict.keys d else Dict.keys d ++ [k].
Proof.
  unfold Dict.mem. induction d as [|[k0 v0] d IH]; simpl; [reflexivity|].
  destruct (String.eqb_spec k0 k) as [->|]; simpl; [reflexivity|].
  rewrite IH. destruct (Dict.get k d); reflexivity.
Qed.

Lemma mem_set k k' v d :
  Dict.mem k' (Dict.set k v d) = String.eqb k k' || Dict.mem k' d.
Proof.
  unfold Dict.mem. rewrite get_set. destruct (String.eqb k k'); reflexivity.
Qed.

Lemma keys_set_incl k v d : incl (Dict.keys d) (Dict.keys (Dict.set k v d)).
Proof.
  rewrite keys_set. destruct (Dict.mem k d); [apply incl_refl|].
  apply incl_appl, incl_refl.
Qed.

Lemma NoDup_keys_set k v d :
  NoDup (Dict.keys d) -> NoDup (Dict.keys (Dict.set k v d)).
Proof.
  intros H. rewrite keys_set. destruct (Dict.mem k d) eqn:E; [exact H|].
  apply mem_false_not_in in E.
  apply NoDup_app; [exact H | repeat constructor; intros [] | ].
  intros x Hx [Hk|[]]. subst. contradiction.
Qed.

(** Two dictionaries with the same keys in the same order and the same
    value at every key are equal. *)
Lemma ext d1 d2 :
  NoDup (Dict.keys d1) -> Dict.keys d1 = Dict.keys d2 ->
  (forall k, Dict.get k d1 = Dict.get k d2) -> d1 = d2.
Proof.
  revert d2. induction d1 as [|[k1 v1] d1 IH]; intros [|[k2 v2] d2] Hnd Hk Hg;
    simpl in *; try discriminate; [reflexivity|].
  injection Hk as -> Hk. inversion Hnd as [|? ? Hnin Hnd']; subst.
  pose proof (Hg k2) as H2. rewrite !String.eqb_refl in H2. injection H2 as ->.
  f_equal. apply IH; [exact Hnd'|exact Hk|].
  intros k. specialize (Hg k).
  destruct (String.eqb_spec k2 k) as [->|]; [|exact Hg].
  assert (Dict.mem k d1 = false) as E1 by now apply mem_false_not_in.
  assert (Dict.mem k d2 = false) as E2
    by (apply mem_false_not_in; change (~ In k (Dict.keys d2)); now rewrite <- Hk).
  unfold Dict.mem in E1, E2.
  destruct (Dict.get k d1), (Dict.get k d2); congruence.
Qed.
End WithValue.
End DictFacts.

(* ================================================================== *)
(** ** Facts about the tokenizer *)
(* ================================================================== *)

Module TokenizerFacts.

Ltac split_result :=
  match goal with
  | |- context [next ?it] => destruct it as [|? ?]; simpl
  | |- context [Py.int ?s] => destruct (Py.int s); simpl
  | |- context [map_result ?f ?l] => destruct (map_result f l); simpl
  | |- context [Py.index ?l ?i] => destruct (Py.index l i); simpl
  | |- context [negb (String.eqb ?a ?b)] => destruct (String.eqb a b); simpl
  | |- context [negb (Dict.mem ?a ?b)] => destruct (Dict.mem a b); simpl
  end.

Ltac split_entity e :=
  destruct (String.eqb_spec e "RAM") as [->|?];
  [|destruct (String.eqb_spec e "CPU") as [->|?];
    [|destruct (String.eqb_spec e "EMC_FREQ") as [->|?];
      [|destruct (String.eqb_spec e "GR3D_FREQ") as [->|?];
        [|destruct (existsb (String.eqb e) ["NVENC"; "NVENC1"; "NVDEC"; "NVDEC1"])
            eqn:?;
          destruct (Py.contains "GPU@" e || Py.contains "gpu@" e);
          destruct (Py.contains "CPU@" e || Py.contains "cpu@" e)]]]];
  simpl.

(** A call of the tokenizer applies the writes of [step_writes]. *)
Lemma parse_tegra_stats_writes (buf : buffer) (toks : list string) :
  _parse_tegra_stats buf toks =
  ('(e, ws, it) <- step_writes toks ;; Ok (e, apply_writes ws buf, it)).
Proof.
  destruct toks as [|entity it]; [reflexivity|].
  unfold _parse_tegra_stats, step_writes.
  split_entity entity; repeat split_result; reflexivity.
Qed.

Lemma nv_in_field_keys (e : string) :
  existsb (String.eqb e) ["NVENC"; "NVENC1"; "NVDEC"; "NVDEC1"] = true ->
  In e field_keys.
Proof.
  intros H. apply existsb_exists in H. destruct H as [x [Hx He]].
  apply String.eqb_eq in He. subst x. unfold field_keys.
  simpl in Hx. simpl. intuition.
Qed.

(** A call that returns an entity consumed at least one token; a call that
    returns [None] had none to consume and wrote nothing; every key written
    is a field key. *)
Lemma step_writes_spec (toks : list string) e ws it :
  step_writes toks = Ok (e, ws, it) ->
  Forall (fun w => In (write_key w) field_keys) ws /\
  match e with
  | None => toks = [] /\ ws = []
  | Some _ => length it < length toks
  end.
Proof.
  destruct toks as [|entity rest].
  - simpl. intros [= <- <- <-]. auto.
  - unfold step_writes.
    split_entity entity; repeat split_result; intros H; try discriminate H;
      injection H as <- <- <-; (split; [|simpl; lia]);
      repeat (apply Forall_cons;
        [first [now apply nv_in_field_keys | simpl; tauto]|]);
      apply Forall_nil.
Qed.

Lemma parse_loop_writes (fuel : nat) (buf : buffer) (toks : list string) :
  parse_loop fuel buf toks =
  match loop_writes fuel toks with
  | Some (Ok ws) => Some (Ok (apply_writes ws buf))
  | Some (Raise e) => Some (Raise e)
  | None => None
  end.
Proof.
  revert buf toks. induction fuel as [|fuel IH]; intros buf toks; [reflexivity|].
  simpl. rewrite parse_tegra_stats_writes.
  destruct (step_writes toks) as [[[[e|] ws] it]|err]; simpl; try reflexivity.
  rewrite IH. destruct (loop_writes fuel it) as [[ws'|err]|]; try reflexivity.
  unfold apply_writes. now rewrite fold_left_app.
Qed.

(** The loop ends within one call more than there are tokens. *)
Lemma loop_writes_total (fuel : nat) (toks : list string) :
  length toks < fuel -> loop_writes fuel toks <> None.
Proof.
  revert toks. induction fuel as [|fuel IH]; intros toks Hlen; [lia|].
  simpl. destruct (step_writes toks) as [[[[e|] ws] it]|err] eqn:E;
    try discriminate.
  apply step_writes_spec in E. destruct E as [_ E].
  specialize (IH it ltac:(lia)).
  destruct (loop_writes fuel it) as [[ws'|err]|]; congruence.
Qed.

Lemma parse_loop_total (fuel : nat) (buf : buffer) (toks : list string) :
  length toks < fuel -> exists r, parse_loop fuel buf toks = Some r.
Proof.
  intros H. rewrite parse_loop_writes.
  pose proof (@loop_writes_total fuel toks H) as Hne.
  destruct (loop_writes fuel toks) as [[ws|err]|]; [eauto|eauto|congruence].
Qed.

Lemma loop_writes_keys (fuel : nat) (toks : list string) ws :
  loop_writes fuel toks = Some (Ok ws) ->
  Forall (fun w => In (write_key w) field_keys) ws.
Proof.
  revert toks ws. induction fuel as [|fuel IH]; intros toks ws; [discriminate|].
  simpl. destruct (step_writes toks) as [[[[e|] ws0] it]|err] eqn:E;
    try discriminate.
  - apply step_writes_spec in E. destruct E as [E _].
    destruct (loop_writes fuel it) as [[ws'|err]|] eqn:L; try discriminate.
    intros [= <-]. apply Forall_app. split; [exact E|]. now apply (IH it).
  - apply step_writes_spec in E. destruct E as [E _]. now intros [= <-].
Qed.

(** The tokenizer as the writes of the line applied to the start buffer. *)
Lemma tokenize_from_writes (line : string) :
  exists r : result (list write),
    (forall ws, r = Ok ws -> Forall (fun w => In (write_key w) field_keys) ws) /\
    forall buf,
      tokenize_from buf line =
      match r with
      | Ok ws => Ok (apply_writes ws buf)
      | Raise e => Raise e
      end.
Proof.
  pose proof (@loop_writes_total (S (length (Py.split " " line))) (Py.split " " line)
                ltac:(lia)) as Hne.
  destruct (loop_writes (S (length (Py.split " " line))) (Py.split " " line))
    as [r|] eqn:L; [|congruence].
  exists r. split.
  - intros ws ->. exact (@loop_writes_keys _ _ _ L).
  - intros buf. unfold tokenize_from. rewrite parse_loop_writes, L.
    destruct r; reflexivity.
Qed.

(** *** Applying the same writes twice *)

Lemma get_apply_write (k : string) (buf : buffer) (w : write) :
  Dict.get k (apply_write buf w) = write_at k (Dict.get k buf) w.
Proof.
  destruct w as [k' v|k' v]; simpl.
  - apply DictFacts.get_set.
  - unfold Dict.mem. destruct (Dict.get k' buf) eqn:G; simpl.
    + destruct (String.eqb_spec k' k) as [<-|]; [|reflexivity].
      now rewrite G.
    + rewrite DictFacts.get_set.
      destruct (String.eqb_spec k' k) as [<-|]; [|reflexivity].
      now rewrite G.
Qed.

Lemma get_apply_writes (k : string) (ws : list write) (buf : buffer) :
  Dict.get k (apply_writes ws buf) = fold_left (write_at k) ws (Dict.get k buf).
Proof.
  revert buf. induction ws as [|w ws IH]; intros buf; [reflexivity|].
  simpl. unfold apply_writes in IH. now rewrite IH, get_apply_write.
Qed.

(** Under one key, a sequence of writes leaves the value alone, or sets
    it, or sets it when it is missing. *)
Lemma writes_at_shape (k : string) (ws : list write) :
  (forall s, fold_left (write_at k) ws s = s) \/
  (exists v, forall s, fold_left (write_at k) ws s = Some v) \/
  (exists v, forall s, fold_left (write_at k) ws s =
                       match s with None => Some v | Some _ => s end).
Proof.
  induction ws as [|w ws IH]; [left; reflexivity|]. simpl.
  destruct w as [k' v|k' v]; simpl;
    (destruct (String.eqb k' k); [|exact IH]).
  - right. left. destruct IH as [H|[[v' H]|[v' H]]].
    + exists v. intros s. apply H.
    + exists v'. intros s. apply H.
    + exists v. intros s. now rewrite H.
  - destruct IH as [H|[[v' H]|[v' H]]].
    + right. right. exists v. intros s. rewrite H. reflexivity.
    + right. left. exists v'. intros s. apply H.
    + right. right. exists v. intros s. rewrite H. now destruct s.
Qed.

Lemma writes_at_idempotent (k : string) (ws : list write) (s : option sval) :
  fold_left (write_at k) ws (fold_left (write_at k) ws s) =
  fold_left (write_at k) ws s.
Proof.
  destruct (writes_at_shape k ws) as [H|[[v H]|[v H]]]; rewrite !H;
    try reflexivity.
  now destruct s.
Qed.

Lemma keys_apply_write_incl (buf : buffer) (w : write) :
  incl (Dict.keys buf) (Dict.keys (apply_write buf w)).
Proof.
  destruct w as [k v|k v]; simpl; [apply DictFacts.keys_set_incl|].
  destruct (Dict.mem k buf); simpl;
    [apply incl_refl|apply DictFacts.keys_set_incl].
Qed.

Lemma key_in_apply_write (buf : buffer) (w : write) :
  In (write_key w) (Dict.keys (apply_write buf w)).
Proof.
  destruct w as [k v|k v]; simpl.
  - apply DictFacts.mem_in_keys. now rewrite DictFacts.mem_set, String.eqb_refl.
  - destruct (Dict.mem k buf) eqn:E; simpl.
    + now apply DictFacts.mem_in_keys.
    + apply DictFacts.mem_in_keys. now rewrite DictFacts.mem_set, String.eqb_refl.
Qed.

Lemma keys_apply_write_same (buf : buffer) (w : write) :
  In (write_key w) (Dict.keys buf) ->
  Dict.keys (apply_write buf w) = Dict.keys buf.
Proof.
  intros H. apply DictFacts.mem_in_keys in H.
  destruct w as [k v|k v]; simpl in *.
  - now rewrite DictFacts.keys_set, H.
  - now rewrite H.
Qed.

Lemma NoDup_apply_write (buf : buffer) (w : write) :
  NoDup (Dict.keys buf) -> NoDup (Dict.keys (apply_write buf w)).
Proof.
  intros H. destruct w as [k v|k v]; simpl.
  - now apply DictFacts.NoDup_keys_set.
  - destruct (Dict.mem k buf); simpl; [exact H|].
    now apply DictFacts.NoDup_keys_set.
Qed.

Lemma keys_apply_writes_incl (ws : list write) (buf : buffer) :
  incl (Dict.keys buf) (Dict.keys (apply_writes ws buf)).
Proof.
  revert buf. induction ws as [|w ws IH]; intros buf; [apply incl_refl|].
  simpl. eapply incl_tran; [apply keys_apply_write_incl|apply IH].
Qed.

Lemma keys_in_apply_writes (ws : list write) (buf : buffer) :
  Forall (fun w => In (write_key w) (Dict.keys (apply_writes ws buf))) ws.
Proof.
  revert buf. induction ws as [|w ws IH]; intros buf; constructor.
  - simpl. apply keys_apply_writes_incl, key_in_apply_write.
  - apply IH.
Qed.

Lemma keys_apply_writes_same (ws : list write) (buf : buffer) :
  Forall (fun w => In (write_key w) (Dict.keys buf)) ws ->
  Dict.keys (apply_writes ws buf) = Dict.keys buf.
Proof.
  revert buf. induction ws as [|w ws IH]; intros buf H; [reflexivity|].
  inversion H as [|? ? Hw Hws]; subst. simpl.
  pose proof (keys_apply_write_same buf w Hw) as E.
  unfold apply_writes in IH. rewrite IH; [exact E|]. now rewrite E.
Qed.

Lemma NoDup_apply_writes (ws : list write) (buf : buffer) :
  NoDup (Dict.keys buf) -> NoDup (Dict.keys (apply_writes ws buf)).
Proof.
  revert buf. induction ws as [|w ws IH]; intros buf H; [exact H|].
  simpl. apply IH. now apply NoDup_apply_write.
Qed.

(** Applying the writes of a line to their own result changes nothing. *)
Lemma apply_writes_idempotent (ws : list write) (buf : buffer) :
  NoDup (Dict.keys buf) ->
  apply_writes ws (apply_writes ws buf) = apply_writes ws buf.
Proof.
  intros H. apply DictFacts.ext.
  - now apply NoDup_apply_writes, NoDup_apply_writes.
  - apply keys_apply_writes_same, keys_in_apply_writes.
  - intros k. rewrite !get_apply_writes. apply writes_at_idempotent.
Qed.

Lemma keys_apply_writes_field (ws : list write) (buf : buffer) :
  Forall (fun w => In (write_key w) field_keys) ws ->
  Forall (fun k => In k field_keys) (Dict.keys buf) ->
  Forall (fun k => In k field_keys) (Dict.keys (apply_writes ws buf)).
Proof.
  revert buf. induction ws as [|w ws IH]; intros buf Hws Hb; [exact Hb|].
  inversion Hws as [|? ? Hw Hws']; subst. simpl. apply IH; [exact Hws'|].
  destruct w as [k v|k v]; simpl in *.
  - rewrite DictFacts.keys_set. destruct (Dict.mem k buf); [exact Hb|].
    apply Forall_app. split; [exact Hb|]. now constructor.
  - destruct (Dict.mem k buf) eqn:E; simpl; [exact Hb|].
    rewrite DictFacts.keys_set, E.
    apply Forall_app. split; [exact Hb|]. now constructor.
Qed.



End TokenizerFacts.

(* ================================================================== *)
(** ** Facts about the sink and the dispatcher *)
(* ================================================================== *)

Section MonitorFacts.
Context {PF : PyFloat}.

Lemma received_store (d : DataBaseProm) (m : msg) :
  received (store d m) = received d ++ [m].
Proof.
  unfold store.
  destruct (Dict.mem (Py.lower (msg_key m)) (_metrics_map d)).
  - destruct (Dict.get (Py.lower (msg_key m)) (_metrics_map d)); [|reflexivity].
    destruct (float (msg_value m)); reflexivity.
  - destruct (Dict.get (Py.lower (msg_key m)) help_text); [|reflexivity].
    destruct (Dict.get _ (Dict.set _ _ _)); [|reflexivity].
    destruct (float (msg_value m)); reflexivity.
Qed.

Lemma received_fold_store (evs : list msg) (d : DataBaseProm) :
  received (fold_left store evs d) = received d ++ evs.
Proof.
  revert d. induction evs as [|m evs IH]; intros d; simpl.
  - now rewrite app_nil_r.
  - now rewrite IH, received_store, <- app_assoc.
Qed.

Lemma effect_nil (self : GpuModule) : effect [] [] self = self.
Proof. now destruct self. Qed.

Lemma effect_effect evs1 recs1 evs2 recs2 (self : GpuModule) :
  effect evs2 recs2 (effect evs1 recs1 self) =
  effect (evs1 ++ evs2) (recs1 ++ recs2) self.
Proof. unfold effect. simpl. now rewrite !fold_left_app. Qed.

Lemma received_effect evs recs (self : GpuModule) :
  received (db (effect evs recs self)) = received (db self) ++ evs.
Proof. apply received_fold_store. Qed.

Lemma metric_set_effect evs recs (self : GpuModule) :
  metric_set (effect evs recs self) =
  fold_left (fun ms kx => metric_set_add (fst kx) (snd kx) ms) recs
    (metric_set self).
Proof. reflexivity. Qed.

Lemma store_gpu_event_effect (self : GpuModule) v name key kw :
  store_gpu_event self v name key kw = effect [GpuEvent key v name kw] [] self.
Proof. reflexivity. Qed.

Lemma record_metric_effect (self : GpuModule) k x :
  record_metric self k x = effect [] [(k, x)] self.
Proof. reflexivity. Qed.

Lemma produce_scalar_effect (self : GpuModule) v name key :
  produce_scalar self v name key =
  effect [GpuEvent key (pyval_of v) name None] [(name, key)] self.
Proof. reflexivity. Qed.

(** A loop whose body sends and records what [E] and [R] say. *)
Lemma fold_effect {A} (f : GpuModule -> A -> GpuModule)
  (E : A -> list msg) (R : A -> list (string * string)) (l : list A) :
  (forall self a, f self a = effect (E a) (R a) self) ->
  forall self, fold_left f l self = effect (flat_map E l) (flat_map R l) self.
Proof.
  intros Hf. induction l as [|a l IH]; intros self; simpl.
  - now rewrite effect_nil.
  - now rewrite IH, Hf, effect_effect.
Qed.

Lemma flat_map_singleton {A B} (f : A -> B) (l : list A) :
  flat_map (fun a => [f a]) l = map f l.
Proof. induction l as [|a l IH]; simpl; [reflexivity|now rewrite IH]. Qed.

Lemma flat_map_nil {A B} (l : list A) :
  flat_map (fun _ : A => @nil B) l = [].
Proof. induction l as [|a l IH]; simpl; [reflexivity|exact IH]. Qed.

Lemma produce_gpu_freq_effect (self : GpuModule) (v : sval) :
  produce_gpu_freq self v =
  effect (indexed_events "tegrastats_gpu_freq" "GPU_FREQ" (enumerate (elements v)))
         (indexed_records "GPU_FREQ" "tegrastats_gpu_freq_" (enumerate (elements v)))
         self.
Proof.
  unfold produce_gpu_freq, indexed_events, indexed_records.
  rewrite <- !flat_map_singleton. apply fold_effect.
  intros s [i x]. reflexivity.
Qed.

Lemma flat_map_filter {A B} (p : A -> bool) (f : A -> B) (l : list A) :
  flat_map (fun a => if p a then [f a] else []) l = map f (filter p l).
Proof.
  induction l as [|a l IH]; simpl; [reflexivity|].
  rewrite IH. now destruct (p a).
Qed.

Lemma produce_cpu_effect (self : GpuModule) (v : sval) :
  produce_cpu self v =
  effect (indexed_events "tegrastats_cpu_usage" "CPU" (cores_on v))
         (indexed_records "CPU" "tegrastats_cpu_usage_" (cores_on v))
         self.
Proof.
  unfold produce_cpu, indexed_events, indexed_records, cores_on.
  rewrite <- !flat_map_filter.
  apply (fold_effect
           (fun self '(cpu_id, cpu_util) =>
              if negb (cpu_util =? "off")
              then record_metric
                     (store_gpu_event self (VStr cpu_util) "CPU"
                        "tegrastats_cpu_usage" (Some (Z.of_nat cpu_id)))
                     "CPU" ("tegrastats_cpu_usage_" ++ Py.str (Z.of_nat cpu_id))
              else self)).
  intros s [i x]. destruct (negb (x =? "off")); [reflexivity|].
  now rewrite effect_nil.
Qed.

Lemma scalar_metric_key_none (k : string) :
  ~ In k field_keys -> Dict.get k scalar_metric_key = None.
Proof.
  intros H. unfold scalar_metric_key. cbn [Dict.get].
  repeat match goal with
         | |- context [String.eqb ?a k] =>
             destruct (String.eqb_spec a k) as [<-|?];
             [exfalso; apply H; simpl; tauto|]
         end.
  reflexivity.
Qed.

(** A key outside the vocabulary is not dispatched. *)
Lemma produce_item_other (self : GpuModule) (k : string) (v : sval) :
  ~ In k field_keys -> produce_item self k v = self.
Proof.
  intros H. unfold produce_item.
  repeat match goal with
         | |- context [String.eqb k ?a] =>
             rewrite (proj2 (String.eqb_neq k a))
               by (intros ->; apply H; unfold field_keys; cbn [In]; tauto)
         end.
  reflexivity.
Qed.

(** The loop body of the dispatcher sends and records what the table
    says. *)
Lemma produce_item_effect (self : GpuModule) (k : string) (v : sval) :
  produce_item self k v = effect (events_of_item k v) (records_of_item k v) self.
Proof.
  destruct (in_dec string_dec k field_keys) as [Hin|Hout].
  - unfold field_keys in Hin. cbn [In] in Hin.
    repeat (destruct Hin as [<-|Hin];
            [first [ exact (produce_gpu_freq_effect self v)
                   | exact (produce_cpu_effect self v)
                   | reflexivity ]|]).
    contradiction.
  - rewrite (produce_item_other self v Hout).
    unfold events_of_item, records_of_item.
    rewrite (proj2 (String.eqb_neq k "GPU_FREQ")), (proj2 (String.eqb_neq k "CPU"))
      by (intros ->; apply Hout; unfold field_keys; cbn [In]; tauto).
    rewrite (scalar_metric_key_none Hout). now rewrite effect_nil.
Qed.

Lemma produce_process_effect (self : GpuModule) (kv : string * Z) :
  produce_process self (fst kv) (snd kv) =
  effect [process_event kv] [process_record kv] self.
Proof. reflexivity. Qed.

Lemma tegra_stats_effect evs recs (self : GpuModule) :
  tegra_stats (effect evs recs self) = tegra_stats self.
Proof. reflexivity. Qed.

Lemma per_process_usage_effect evs recs (self : GpuModule) :
  per_process_usage (effect evs recs self) = per_process_usage self.
Proof. reflexivity. Qed.

(** The dispatcher sends every observation of the sample to the sink, in
    order, and records their pairs. *)
Lemma produce_gpu_event_effect (self : GpuModule) :
  _produce_gpu_event self =
  effect (dispatch_events (tegra_stats self) (per_process_usage self))
         (dispatch_records (tegra_stats self) (per_process_usage self)) self.
Proof.
  unfold _produce_gpu_event, dispatch_events, dispatch_records.
  rewrite (fold_effect (fun self '(k, v) => produce_item self k v)
             (fun kv => events_of_item (fst kv) (snd kv))
             (fun kv => records_of_item (fst kv) (snd kv)))
    by (intros s [k v]; apply produce_item_effect).
  rewrite (fold_effect (fun self '(k, v) => produce_process self k v)
             (fun kv => [process_event kv]) (fun kv => [process_record kv]))
    by (intros s [k n]; reflexivity).
  rewrite effect_effect, !flat_map_singleton. reflexivity.
Qed.

Lemma nullify_keys_effect (self : GpuModule) name keys :
  nullify_keys self name keys = effect (map (zero_event name) keys) [] self.
Proof.
  unfold nullify_keys.
  rewrite (fold_effect
             (fun self metric_key =>
                store_gpu_event self VFloat0 name metric_key None)
             (fun key => [zero_event name key]) (fun _ => []))
    by reflexivity.
  now rewrite flat_map_singleton, flat_map_nil.
Qed.

(** The zeroing path sends one zero per recorded pair and records
    nothing. *)
Lemma nullify_gpu_data_effect (self : GpuModule) :
  _nullify_gpu_data self = effect (zero_events (metric_set self)) [] self.
Proof.
  unfold _nullify_gpu_data, zero_events.
  generalize (metric_set self) as ms. intros ms.
  rewrite (fold_effect
             (fun self '(metric_name, metric_keys) =>
                nullify_keys self metric_name metric_keys)
             (fun kv => map (zero_event (fst kv)) (snd kv)) (fun _ => []))
    by (intros s [k ks]; apply nullify_keys_effect).
  now rewrite flat_map_nil.
Qed.

(** *** The sink *)

Local Opaque help_text.

Lemma labelvalues_eqb_spec (a b : labelvalues) :
  reflect (a = b) (labelvalues_eqb a b).
Proof.
  destruct a as [a1 a2], b as [b1 b2]. unfold labelvalues_eqb. simpl.
  destruct (String.eqb_spec a1 b1) as [->|]; simpl.
  - destruct (String.eqb_spec a2 b2) as [->|]; constructor; congruence.
  - constructor. congruence.
Qed.

Lemma child_get_set (lv lv' : labelvalues) (f : float_t) cs :
  child_get lv' (child_set lv f cs) =
  if labelvalues_eqb lv lv' then Some f else child_get lv' cs.
Proof.
  induction cs as [|[lv0 f0] cs IH]; simpl.
  - reflexivity.
  - destruct (labelvalues_eqb_spec lv0 lv) as [->|]; simpl.
    + destruct (labelvalues_eqb lv lv'); reflexivity.
    + rewrite IH. destruct (labelvalues_eqb_spec lv0 lv') as [->|]; [|reflexivity].
      destruct (labelvalues_eqb_spec lv lv'); [congruence|reflexivity].
Qed.

Lemma child_get_labels (g : Gauge) (lv lv' : labelvalues) :
  child_get lv' (children (labels g lv)) =
  if labelvalues_eqb lv lv'
  then match child_get lv (children g) with
       | Some x => Some x
       | None => Some float_zero
       end
  else child_get lv' (children g).
Proof.
  unfold labels. destruct (child_get lv (children g)) eqn:G; simpl.
  - destruct (labelvalues_eqb_spec lv lv') as [<-|]; [exact G|reflexivity].
  - now rewrite child_get_set.
Qed.

(** An unrecognised name leaves the registered gauges as they are. *)
Lemma metrics_map_store_unrecognized (d : DataBaseProm) (m : msg) :
  recognized d (Py.lower (msg_key m)) = false ->
  _metrics_map (store d m) = _metrics_map d.
Proof.
  unfold store, recognized. set (n := Py.lower (msg_key m)).
  intros H. apply orb_false_iff in H. destruct H as [H1 H2].
  rewrite H1. unfold Dict.mem in H2.
  destruct (Dict.get n help_text); [discriminate|reflexivity].
Qed.

Lemma child_get_after (g : Gauge) (l lv : labelvalues) (fv : option float_t) :
  child_get lv
    (children match fv with
              | Some f => gauge_set (labels g l) l f
              | None => labels g l
              end) =
  if labelvalues_eqb l lv
  then match fv with
       | Some f => Some f
       | None => match child_get lv (children g) with
                 | Some x => Some x
                 | None => Some float_zero
                 end
       end
  else child_get lv (children g).
Proof.
  destruct fv as [f|]; simpl.
  - rewrite child_get_set. destruct (labelvalues_eqb l lv) eqn:E; [reflexivity|].
    now rewrite child_get_labels, E.
  - rewrite child_get_labels.
    destruct (labelvalues_eqb_spec l lv) as [<-|]; reflexivity.
Qed.

(** [store] on a recognised name, with the gauge it works on. *)
Lemma store_recognized (d : DataBaseProm) (m : msg) :
  recognized d (Py.lower (msg_key m)) = true ->
  exists g mm,
    (Dict.get (Py.lower (msg_key m)) (_metrics_map d) = Some g \/
     Dict.get (Py.lower (msg_key m)) (_metrics_map d) = None /\ children g = []) /\
    (forall name, name <> Py.lower (msg_key m) ->
                  Dict.get name mm = Dict.get name (_metrics_map d)) /\
    _metrics_map (store d m) =
    Dict.set (Py.lower (msg_key m))
      match float (msg_value m) with
      | Some f => gauge_set (labels g (labelvalues_of m)) (labelvalues_of m) f
      | None => labels g (labelvalues_of m)
      end mm.
Proof.
  unfold store, recognized. set (n := Py.lower (msg_key m)).
  unfold Dict.mem.
  destruct (Dict.get n (_metrics_map d)) as [g|] eqn:G; cbv iota.
  - intros _. exists g, (_metrics_map d). rewrite G.
    split; [now left|]. split; [reflexivity|].
    destruct (float (msg_value m)); reflexivity.
  - destruct (Dict.get n help_text) as [h|] eqn:H; [|discriminate].
    intros _. rewrite DictFacts.get_set_same.
    exists {| documentation := h; children := [] |},
           (Dict.set n {| documentation := h; children := [] |} (_metrics_map d)).
    split; [now right|]. split.
    + intros name Hne. apply DictFacts.get_set_other. congruence.
    + destruct (float (msg_value m)); reflexivity.
Qed.

(** What the sink exposes after [store]: only the series of the message
    can change, and only when the metric name is recognised. *)
Lemma series_store (d : DataBaseProm) (m : msg) (name : string) (lv : labelvalues) :
  series (store d m) name lv =
  if recognized d (Py.lower (msg_key m))
     && (String.eqb (Py.lower (msg_key m)) name
         && labelvalues_eqb (labelvalues_of m) lv)
  then match float (msg_value m) with
       | Some f => Some f
       | None => match series d name lv with
                 | Some x => Some x
                 | None => Some float_zero
                 end
       end
  else series d name lv.
Proof.
  destruct (recognized d (Py.lower (msg_key m))) eqn:R; simpl.
  - destruct (store_recognized d m R) as [g [mm [Hg [Hmm Hs]]]].
    unfold series. rewrite Hs, DictFacts.get_set.
    destruct (String.eqb_spec (Py.lower (msg_key m)) name) as [<-|Hne]; simpl.
    + rewrite child_get_after.
      destruct (labelvalues_eqb (labelvalues_of m) lv); simpl.
      * destruct Hg as [->|[-> Hc]]; [reflexivity|]. now rewrite Hc.
      * destruct Hg as [->|[-> Hc]]; [reflexivity|]. now rewrite Hc.
    + rewrite Hmm by congruence. reflexivity.
  - unfold series. now rewrite metrics_map_store_unrecognized.
Qed.


Lemma mem_metrics_map_store (d : DataBaseProm) (m : msg) (name : string) :
  Dict.mem name (_metrics_map (store d m)) = true ->
  Dict.mem name (_metrics_map d) = true \/
  (name = Py.lower (msg_key m) /\ Dict.mem name help_text = true).
Proof.
  intros H. destruct (recognized d (Py.lower (msg_key m))) eqn:R.
  - destruct (store_recognized d m R) as [g [mm [_ [Hmm Hs]]]].
    rewrite Hs, DictFacts.mem_set in H.
    destruct (String.eqb_spec (Py.lower (msg_key m)) name) as [<-|Hne].
    + unfold recognized in R. apply orb_true_iff in R.
      destruct R as [R|R]; [now left|now right].
    + left. simpl in H. unfold Dict.mem in *.
      rewrite Hmm in H by congruence. exact H.
  - left. now rewrite metrics_map_store_unrecognized in H.
Qed.

Lemma sink_ok_init : sink_ok DataBaseProm_init.
Proof. intros name H. discriminate H. Qed.

Lemma sink_ok_store (d : DataBaseProm) (m : msg) :
  sink_ok d -> sink_ok (store d m).
Proof.
  intros Hd name H. apply mem_metrics_map_store in H.
  destruct H as [H|[_ H]]; [now apply Hd|exact H].
Qed.

Lemma sink_ok_fold_store (evs : list msg) (d : DataBaseProm) :
  sink_ok d -> sink_ok (fold_left store evs d).
Proof.
  revert d. induction evs as [|m evs IH]; intros d H; [exact H|].
  simpl. apply IH. now apply sink_ok_store.
Qed.

(** In a sink that only registered names of the help table, a name is
    recognised exactly when the table has it. *)
Lemma recognized_ok (d : DataBaseProm) (name : string) :
  sink_ok d -> recognized d name = Dict.mem name help_text.
Proof.
  intros H. unfold recognized.
  destruct (Dict.mem name (_metrics_map d)) eqn:E; simpl; [|reflexivity].
  symmetry. now apply H.
Qed.

Local Transparent help_text.

(** *** One tick *)

Lemma db_tick (self : GpuModule) (env : tick_env) :
  db (tick self env) = fold_left store (tick_events self env) (db self).
Proof.
  unfold tick, tick_events, sample.
  destruct (tegrastats_output env) as [line|e]; simpl;
    [|now rewrite nullify_gpu_data_effect].
  destruct (tokenize line) as [buf|e]; simpl;
    [|now rewrite nullify_gpu_data_effect].
  destruct (nvmap_clients_output env) as [text|e]; simpl;
    [|now rewrite nullify_gpu_data_effect].
  destruct (_parse_per_process_gpu_stats text) as [usage|e]; simpl;
    [|now rewrite nullify_gpu_data_effect].
  now rewrite produce_gpu_event_effect.
Qed.

Lemma metric_set_tick (self : GpuModule) (env : tick_env) :
  metric_set (tick self env) =
  fold_left (fun ms kx => metric_set_add (fst kx) (snd kx) ms)
    (tick_records env) (metric_set self).
Proof.
  unfold tick, tick_records, sample.
  destruct (tegrastats_output env) as [line|e]; simpl;
    [|now rewrite nullify_gpu_data_effect].
  destruct (tokenize line) as [buf|e]; simpl;
    [|now rewrite nullify_gpu_data_effect].
  destruct (nvmap_clients_output env) as [text|e]; simpl;
    [|now rewrite nullify_gpu_data_effect].
  destruct (_parse_per_process_gpu_stats text) as [usage|e]; simpl;
    [|now rewrite nullify_gpu_data_effect].
  now rewrite produce_gpu_event_effect.
Qed.

Lemma received_tick (self : GpuModule) (env : tick_env) :
  received (db (tick self env)) = received (db self) ++ tick_events self env.
Proof. now rewrite db_tick, received_fold_store. Qed.

(** *** The set of recorded pairs *)

Lemma grows_refl (ms : metric_set_t) : grows ms ms.
Proof. intros k. split; auto. Qed.

Lemma grows_trans (a b c : metric_set_t) : grows a b -> grows b c -> grows a c.
Proof.
  intros H1 H2 k. destruct (H1 k) as [A1 B1]. destruct (H2 k) as [A2 B2].
  split; auto.
Qed.

Lemma in_set_add (x y : string) (s : list string) :
  In y (set_add x s) <-> y = x \/ In y s.
Proof.
  unfold set_add. destruct (existsb (String.eqb x) s) eqn:E.
  - split; [auto|]. intros [->|H]; [|exact H].
    apply existsb_exists in E. destruct E as [z [Hz Ez]].
    apply String.eqb_eq in Ez. now subst.
  - rewrite in_app_iff. simpl. intuition congruence.
Qed.

Lemma metric_keys_of_add (k k' x : string) (ms : metric_set_t) :
  metric_keys_of k' (metric_set_add k x ms) =
  if String.eqb k k' then set_add x (metric_keys_of k ms) else metric_keys_of k' ms.
Proof.
  unfold metric_keys_of at 1, metric_set_add. rewrite DictFacts.get_set.
  now destruct (String.eqb k k').
Qed.

Lemma grows_add (k x : string) (ms : metric_set_t) :
  grows ms (metric_set_add k x ms).
Proof.
  intros k'. split.
  - intros H. unfold metric_set_add. rewrite DictFacts.mem_set, H.
    apply orb_true_r.
  - intros y Hy. rewrite metric_keys_of_add.
    destruct (String.eqb_spec k k') as [->|]; [|exact Hy].
    apply in_set_add. now right.
Qed.

Lemma grows_fold_add (recs : list (string * string)) (ms : metric_set_t) :
  grows ms (fold_left (fun ms kx => metric_set_add (fst kx) (snd kx) ms) recs ms).
Proof.
  revert ms. induction recs as [|[k x] recs IH]; intros ms; simpl.
  - apply grows_refl.
  - eapply grows_trans; [apply grows_add|apply IH].
Qed.

Lemma in_fold_add (recs : list (string * string)) (ms : metric_set_t) k x :
  In (k, x) recs ->
  In x (metric_keys_of k
          (fold_left (fun ms kx => metric_set_add (fst kx) (snd kx) ms) recs ms)).
Proof.
  revert ms. induction recs as [|[k0 x0] recs IH]; intros ms; simpl; [tauto|].
  intros [[= -> ->]|H]; [|now apply IH].
  apply (grows_fold_add recs (metric_set_add k x ms)).
  rewrite metric_keys_of_add, String.eqb_refl. apply in_set_add. now left.
Qed.

(** Every zero sent by the zeroing path is for a recorded pair, and every
    recorded pair gets its zero. *)
Lemma in_zero_events (ms : metric_set_t) (m : msg) :
  In m (zero_events ms) <->
  exists k ks x, In (k, ks) ms /\ In x ks /\ m = zero_event k x.
Proof.
  unfold zero_events. rewrite in_flat_map. split.
  - intros [[k ks] [Hin Hm]]. simpl in Hm. apply in_map_iff in Hm.
    destruct Hm as [x [<- Hx]]. now exists k, ks, x.
  - intros [k [ks [x [Hin [Hx ->]]]]]. exists (k, ks). split; [exact Hin|].
    simpl. now apply in_map.
Qed.

End MonitorFacts.

(* ================================================================== *)
(** ** The properties of the design *)
(* ================================================================== *)

Section Properties.
Context {PF : PyFloat}.

Lemma dispatch_events_fresh (buf : buffer) (usage : Dict.t Z) (m : msg) :
  In m (dispatch_events buf usage) -> msg_value m <> VFloat0.
Proof.
  unfold dispatch_events. rewrite in_app_iff, in_flat_map, in_map_iff.
  intros [[[k v] [_ H]]|[[k n] [<- _]]]; [|discriminate].
  simpl in H. unfold events_of_item, indexed_events in H.
  destruct (k =? "GPU_FREQ").
  { apply in_map_iff in H. destruct H as [[i x] [<- _]]. discriminate. }
  destruct (k =? "CPU").
  { apply in_map_iff in H. destruct H as [[i x] [<- _]]. discriminate. }
  destruct (Dict.get k scalar_metric_key); [|contradiction].
  destruct H as [<-|[]]. destruct v; discriminate.
Qed.

Lemma tokenize_keys (line : string) (buf : buffer) :
  tokenize line = Ok buf -> Forall (fun k => In k field_keys) (Dict.keys buf).
Proof.
  unfold tokenize. destruct (TokenizerFacts.tokenize_from_writes line) as [r [Hk Hr]].
  rewrite Hr. destruct r as [ws|e]; [|discriminate]. intros [= <-].
  apply TokenizerFacts.keys_apply_writes_field; [now apply Hk|constructor].
Qed.

Lemma sample_keys (env : tick_env) (buf : buffer) (usage : Dict.t Z) :
  sample env = Ok (buf, usage) -> Forall (fun k => In k field_keys) (Dict.keys buf).
Proof.
  unfold sample.
  destruct (tegrastats_output env) as [line|]; simpl; [|discriminate].
  destruct (tokenize line) as [b|] eqn:T; simpl; [|discriminate].
  destruct (nvmap_clients_output env) as [text|]; simpl; [|discriminate].
  destruct (_parse_per_process_gpu_stats text); simpl; [|discriminate].
  intros [= <- <-]. now apply tokenize_keys in T.
Qed.

(** C2.  All or nothing, per tick.  When every stage before dispatch
    succeeds, the sink receives exactly the observations of the whole
    parsed sample (every field of the line, whose keys are all field keys
    the dispatcher knows, then every process), none of which is a zero of
    the zeroing path.  When a stage raises, the sink receives exactly the
    zeros of the pairs recorded before the tick, and nothing of the tick's
    sample.  Dispatch itself cannot raise: [store] is total. *)
Theorem tick_all_or_nothing (self : GpuModule) (env : tick_env) :
  match sample env with
  | Ok (buf, usage) =>
      received (db (tick self env)) =
        received (db self) ++ dispatch_events buf usage /\
      (forall k v, In (k, v) buf ->
                   In k field_keys /\
                   incl (events_of_item k v) (dispatch_events buf usage)) /\
      (forall k n, In (k, n) usage ->
                   In (GpuEvent "tegrastats_per_process_gpu_mem" (VInt n) k None)
                      (dispatch_events buf usage)) /\
      Forall (fun m => msg_value m <> VFloat0) (dispatch_events buf usage)
  | Raise _ =>
      received (db (tick self env)) =
        received (db self) ++ zero_events (metric_set self) /\
      Forall (fun m => msg_value m = VFloat0 /\
                       exists k ks, In (k, ks) (metric_set self) /\
                                    msg_label m = Some k /\ In (msg_key m) ks)
        (zero_events (metric_set self))
  end.
Proof.
  pose proof (received_tick self env) as R. unfold tick_events in R.
  destruct (sample env) as [[buf usage]|e] eqn:S.
  - split; [exact R|]. split; [|split].
    + intros k v Hin. split.
      * pose proof (sample_keys env S) as Hk.
        rewrite Forall_forall in Hk. apply Hk.
        unfold Dict.keys. now apply (in_map fst) in Hin.
      * intros m Hm. unfold dispatch_events. apply in_or_app. left.
        apply in_flat_map. now exists (k, v).
    + intros k n Hin. unfold dispatch_events. apply in_or_app. right.
      now apply (in_map process_event) in Hin.
    + apply Forall_forall. intros m. apply dispatch_events_fresh.
  - split; [exact R|]. apply Forall_forall. intros m Hm.
    apply in_zero_events in Hm. destruct Hm as [k [ks [x [Hin [Hx ->]]]]].
    split; [reflexivity|]. now exists k, ks.
Qed.

(** C8.  Tokenizing is deterministic and idempotent: two runs over the
    tokens of a line, each from an empty sample, give the same outcome;
    the loop always ends; and running the tokenizer once more over the
    same line, starting from the sample of the first run, gives that
    sample again. *)
Theorem tokenize_idempotent (line : string) :
  (forall r1 r2, tokenize line = r1 -> tokenize line = r2 -> r1 = r2) /\
  parse_loop (S (length (Py.split " " line))) [] (Py.split " " line) <> None /\
  (forall buf, tokenize line = Ok buf -> tokenize_from buf line = Ok buf).
Proof.
  split; [intros r1 r2 <- <-; reflexivity|]. split.
  - destruct (@TokenizerFacts.parse_loop_total
                (S (length (Py.split " " line))) [] (Py.split " " line)
                ltac:(lia)) as [r Hr].
    congruence.
  - intros buf. unfold tokenize.
    destruct (TokenizerFacts.tokenize_from_writes line) as [r [_ Hr]].
    rewrite !Hr. destruct r as [ws|e]; [|discriminate]. intros [= <-].
    f_equal. apply TokenizerFacts.apply_writes_idempotent. constructor.
Qed.

(** C9.  The set of recorded pairs only grows: sending an event and the
    zeroing path leave it as it is, recording a pair, the dispatcher, a
    tick and any run of ticks keep every field key and every metric key
    recorded so far. *)
Theorem metric_set_only_grows (self : GpuModule) :
  (forall v name key kw,
      metric_set (store_gpu_event self v name key kw) = metric_set self) /\
  metric_set (_nullify_gpu_data self) = metric_set self /\
  (forall k x, grows (metric_set self) (metric_set (record_metric self k x))) /\
  grows (metric_set self) (metric_set (_produce_gpu_event self)) /\
  (forall env, grows (metric_set self) (metric_set (tick self env))) /\
  (forall envs, grows (metric_set self) (metric_set (_process_gpu_stats self envs))).
Proof.
  split; [reflexivity|]. split; [now rewrite nullify_gpu_data_effect|].
  split; [intros k x; apply grows_add|].
  split; [rewrite produce_gpu_event_effect; apply grows_fold_add|].
  assert (forall s env, grows (metric_set s) (metric_set (tick s env))) as Ht
    by (intros s env; rewrite metric_set_tick; apply grows_fold_add).
  split; [apply Ht|].
  intros envs. unfold _process_gpu_stats. revert self.
  induction envs as [|env envs IH]; intros self; simpl; [apply grows_refl|].
  eapply grows_trans; [apply Ht|apply IH].
Qed.


Lemma in_enumerate_from {A} (l : list A) (n i : nat) (x : A) :
  In (i, x) (enumerate_from n l) <-> n <= i /\ nth_error l (i - n) = Some x.
Proof.
  revert n. induction l as [|a l IH]; intros n; simpl.
  - split; [tauto|]. intros [_ H]. now destruct (i - n).
  - rewrite IH. split.
    + intros [[= <- <-]|[Hle H]].
      * split; [lia|]. now rewrite Nat.sub_diag.
      * split; [lia|]. replace (i - n) with (S (i - S n)) by lia. exact H.
    + intros [Hle H]. destruct (i - n) as [|j] eqn:E.
      * left. injection H as <-. f_equal. lia.
      * right. split; [lia|]. replace (i - S n) with j by lia. exact H.
Qed.

Lemma in_cores_on (v : sval) (i : nat) (x : string) :
  In (i, x) (cores_on v) <-> nth_error (elements v) i = Some x /\ x <> "off".
Proof.
  unfold cores_on, enumerate. rewrite filter_In, in_enumerate_from, Nat.sub_0_r.
  rewrite negb_true_iff, String.eqb_neq. intuition lia.
Qed.

(** C7.  The payload [[10%@102,off,30%@204]] of a [CPU] token is stored as
    the per-core sequence 10, off, 30; the dispatcher sends
    [tegrastats_cpu_usage] for positions 0 and 2 only; and for any [CPU]
    value it sends one observation for each position whose entry is not
    the literal [off], and none for the others. *)
Theorem cpu_field_skips_off :
  _parse_tegra_stats [] ["CPU"; "[10%@102,off,30%@204]"] =
    Ok (Some "CPU", [("CPU", Seq ["10"; "off"; "30"])], []) /\
  (forall self : GpuModule,
      received (db (produce_item self "CPU" (Seq ["10"; "off"; "30"]))) =
      received (db self) ++
      [ GpuEvent "tegrastats_cpu_usage" (VStr "10") "CPU" (Some 0%Z);
        GpuEvent "tegrastats_cpu_usage" (VStr "30") "CPU" (Some 2%Z) ]) /\
  (forall (self : GpuModule) (v : sval),
      exists sent,
        received (db (produce_item self "CPU" v)) = received (db self) ++ sent /\
        forall m, In m sent <->
                  exists i x, nth_error (elements v) i = Some x /\ x <> "off" /\
                              m = GpuEvent "tegrastats_cpu_usage" (VStr x) "CPU"
                                    (Some (Z.of_nat i))).
Proof.
  split; [reflexivity|]. split.
  - intros self. rewrite produce_item_effect. simpl.
    now rewrite !received_store, <- app_assoc.
  - intros self v. exists (indexed_events "tegrastats_cpu_usage" "CPU" (cores_on v)).
    split.
    + rewrite produce_item_effect. apply received_effect.
    + intros m. unfold indexed_events. rewrite in_map_iff. split.
      * intros [[i x] [<- H]]. apply in_cores_on in H. now exists i, x.
      * intros [i [x [H1 [H2 ->]]]]. exists (i, x). split; [reflexivity|].
        now apply in_cores_on.
Qed.

Lemma scalar_key_not_indexed (k metric_key : string) :
  Dict.get k scalar_metric_key = Some metric_key ->
  (k =? "GPU_FREQ") = false /\ (k =? "CPU") = false.
Proof.
  intros H. split.
  - destruct (String.eqb_spec k "GPU_FREQ") as [->|]; [discriminate H|reflexivity].
  - destruct (String.eqb_spec k "CPU") as [->|]; [discriminate H|reflexivity].
Qed.

(** C10.  Every observation the sink stores carries both label
    dimensions: a call of [store] can only change the series named by the
    message's key whose [label] is the message's label, or [none] without
    one, and whose [index] is the message's index as text, or [0] without
    one; and a convertible value of a recognised name is stored there.
    A field dispatched as one observation, and a process amount, go to
    the series (metric key, label = field key, index = 0) and are recorded
    under the field key; the zeroing path sends, for every recorded pair,
    value 0.0 to the series (recorded metric key, label = field key,
    index = 0). *)
Theorem observations_carry_both_labels :
  (forall (d : DataBaseProm) (m : msg) (name : string) (lv : labelvalues),
      series (store d m) name lv <> series d name lv ->
      name = Py.lower (msg_key m) /\
      lv = (match msg_label m with Some l => l | None => "none" end,
            match msg_index m with Some i => Py.str i | None => "0" end)) /\
  (forall (d : DataBaseProm) (m : msg) (f : float_t),
      recognized d (Py.lower (msg_key m)) = true ->
      float (msg_value m) = Some f ->
      series (store d m) (Py.lower (msg_key m))
        (match msg_label m with Some l => l | None => "none" end,
         match msg_index m with Some i => Py.str i | None => "0" end) = Some f) /\
  (forall (self : GpuModule) (k metric_key : string) (v : sval),
      Dict.get k scalar_metric_key = Some metric_key ->
      received (db (produce_item self k v)) =
        received (db self) ++ [GpuEvent metric_key (pyval_of v) k None] /\
      labelvalues_of (GpuEvent metric_key (pyval_of v) k None) = (k, "0") /\
      In metric_key (metric_keys_of k (metric_set (produce_item self k v)))) /\
  (forall (self : GpuModule) (k : string) (n : Z),
      received (db (produce_process self k n)) =
        received (db self) ++
        [GpuEvent "tegrastats_per_process_gpu_mem" (VInt n) k None] /\
      labelvalues_of (GpuEvent "tegrastats_per_process_gpu_mem" (VInt n) k None)
        = (k, "0") /\
      In "tegrastats_per_process_gpu_mem"
         (metric_keys_of k (metric_set (produce_process self k n)))) /\
  (forall (self : GpuModule) (k metric_key : string),
      In metric_key (metric_keys_of k (metric_set self)) ->
      exists sent,
        received (db (_nullify_gpu_data self)) = received (db self) ++ sent /\
        In (GpuEvent metric_key VFloat0 k None) sent /\
        labelvalues_of (GpuEvent metric_key VFloat0 k None) = (k, "0")).
Proof.
  split; [|split; [|split; [|split]]].
  - intros d m name lv H. rewrite series_store in H.
    destruct (recognized d (Py.lower (msg_key m))); simpl in H; [|congruence].
    destruct (String.eqb (Py.lower (msg_key m)) name) eqn:E1;
      simpl in H; [|congruence].
    destruct (labelvalues_eqb (labelvalues_of m) lv) eqn:E2; [|congruence].
    apply String.eqb_eq in E1.
    destruct (labelvalues_eqb_spec (labelvalues_of m) lv) as [E3|];
      [|discriminate].
    split; [now symmetry|now rewrite <- E3].
  - intros d m f R F. fold (labelvalues_of m).
    rewrite series_store, R, F, String.eqb_refl.
    now destruct (labelvalues_eqb_spec (labelvalues_of m) (labelvalues_of m)).
  - intros self k metric_key v H.
    destruct (scalar_key_not_indexed _ H) as [H1 H2].
    rewrite produce_item_effect. unfold events_of_item, records_of_item.
    rewrite H1, H2, H. split; [|split].
    + apply received_effect.
    + reflexivity.
    + rewrite metric_set_effect. apply in_fold_add. now left.
  - intros self k n. split; [|split].
    + unfold produce_process, record_metric, store_gpu_event. simpl.
      apply received_store.
    + reflexivity.
    + unfold produce_process, record_metric. simpl.
      rewrite metric_keys_of_add, String.eqb_refl. apply in_set_add. now left.
  - intros self k metric_key H. exists (zero_events (metric_set self)).
    split; [|split].
    + rewrite nullify_gpu_data_effect. apply received_effect.
    + apply in_zero_events. unfold metric_keys_of in H.
      destruct (Dict.get k (metric_set self)) as [ks|] eqn:G; [|contradiction].
      exists k, ks, metric_key. split; [|split; [exact H|reflexivity]].
      now apply DictFacts.get_in.
    + reflexivity.
Qed.

(** The zero sent for a recorded per-cluster or per-core key is never
    recognised by a sink that registered only names of the help table:
    the recorded key is the metric name with the position appended. *)
Lemma zero_of_indexed_key_is_rejected (d : DataBaseProm) (i : Z) :
  sink_ok d ->
  _metrics_map
    (store d (zero_event "GPU_FREQ" ("tegrastats_gpu_freq_" ++ Py.str i)))
    = _metrics_map d /\
  _metrics_map
    (store d (zero_event "CPU" ("tegrastats_cpu_usage_" ++ Py.str i)))
    = _metrics_map d.
Proof.
  intros Hd.
  split; apply metrics_map_store_unrecognized; rewrite (recognized_ok _ Hd);
    reflexivity.
Qed.


(** *** The per-process parser *)

Lemma parse_process_lines_rows (lines : list string) (rows : list (string * Z))
  (d : Dict.t Z) :
  Forall2 (fun line row =>
             exists amount,
               nth_error (Py.split_ws line) 1 = Some (fst row) /\
               nth_error (Py.split_ws line) 3 = Some amount /\
               Py.int (Py.drop_last amount) = Ok (snd row)) lines rows ->
  parse_process_lines d lines =
  Ok (fold_left (fun d row => Dict.set (fst row) (snd row) d) rows d).
Proof.
  intros H. revert d.
  induction H as [|line row lines rows [amount [H1 [H3 Hi]]] _ IH]; intros d;
    [reflexivity|].
  cbn [parse_process_lines]. unfold parse_process_info, Py.index, Py.bind.
  rewrite H3. cbv beta iota. rewrite Hi. cbv beta iota. rewrite H1.
  cbv beta iota. apply IH.
Qed.

Lemma parse_process_info_short (line : string) (d : Dict.t Z) :
  length (Py.split_ws line) < 4 -> parse_process_info d line = Raise IndexError.
Proof.
  intros H. unfold parse_process_info, Py.index.
  destruct (nth_error (Py.split_ws line) 3) eqn:E; [|reflexivity].
  assert (nth_error (Py.split_ws line) 3 <> None) as Hn by congruence.
  apply nth_error_Some in Hn. lia.
Qed.

Lemma parse_process_lines_short (lines : list string) (d : Dict.t Z) :
  Exists (fun line => length (Py.split_ws line) < 4) lines ->
  exists e, parse_process_lines d lines = Raise e.
Proof.
  intros H. revert d. induction H as [line lines H|line lines _ IH]; intros d;
    simpl.
  - rewrite (parse_process_info_short _ d H). now exists IndexError.
  - destruct (parse_process_info d line) as [d'|e]; simpl; [apply IH|now exists e].
Qed.

(** C5.  The per-process parser drops the first and the last line of the
    text; when every remaining line has, split on whitespace, a name at
    position 1 and at position 3 a text that is an integer once its last
    character is cut, the result maps each name to that integer, a later
    line replacing an earlier one of the same name; the sample line maps
    rosie-perceptio to 753528; and when a remaining line has fewer than
    four fields the parser raises, and the tick that reads this text sends
    nothing but the zeros of the recorded pairs and records nothing. *)
Theorem per_process_parser_spec (text : string) :
  (forall rows : list (string * Z),
      Forall2 (fun line row =>
                 exists amount,
                   nth_error (Py.split_ws line) 1 = Some (fst row) /\
                   nth_error (Py.split_ws line) 3 = Some amount /\
                   Py.int (Py.drop_last amount) = Ok (snd row))
        (Py.slice_1_m1 (Py.split "010" text)) rows ->
      _parse_per_process_gpu_stats text =
      Ok (fold_left (fun d row => Dict.set (fst row) (snd row) d) rows [])) /\
  (forall d : Dict.t Z,
      parse_process_info d "user rosie-perceptio 27278 753528K" =
      Ok (Dict.set "rosie-perceptio" 753528%Z d)) /\
  (Exists (fun line => length (Py.split_ws line) < 4)
     (Py.slice_1_m1 (Py.split "010" text)) ->
   (exists e, _parse_per_process_gpu_stats text = Raise e) /\
   forall (self : GpuModule) (env : tick_env),
     nvmap_clients_output env = Ok text ->
     received (db (tick self env)) =
       received (db self) ++ zero_events (metric_set self) /\
     metric_set (tick self env) = metric_set self).
Proof.
  split; [|split].
  - intros rows H. now apply parse_process_lines_rows.
  - reflexivity.
  - intros H.
    destruct (parse_process_lines_short [] H) as [e He].
    split; [now exists e|].
    intros self env Henv.
    assert (exists e', sample env = Raise e') as [e' S].
    { unfold sample. destruct (tegrastats_output env); simpl; [|eauto].
      destruct (tokenize a); simpl; [|eauto].
      rewrite Henv. simpl. unfold _parse_per_process_gpu_stats.
      rewrite He. simpl. eauto. }
    split.
    + rewrite received_tick. unfold tick_events. now rewrite S.
    + rewrite metric_set_tick. unfold tick_records. now rewrite S.
Qed.

(** *** The [GR3D_FREQ] payload *)

Lemma map_result_ok {A B} (f : A -> result B) (g : A -> B) (l : list A) :
  Forall (fun a => f a = Ok (g a)) l -> map_result f l = Ok (map g l).
Proof.
  induction 1 as [|a l Ha _ IH]; [reflexivity|].
  simpl. now rewrite Ha, IH.
Qed.

Lemma digits_string_facts (f : string) (c : ascii) :
  f <> EmptyString /\ Py.all_chars Py.is_digit f = true ->
  Py.is_digit c = false -> Py.has_char c f = false.
Proof. intros [_ H] Hc. now apply PyFacts.digits_has_char. Qed.

Lemma joined_digits_no_char (freqs : list string) (c : ascii) :
  Forall (fun f => f <> EmptyString /\ Py.all_chars Py.is_digit f = true) freqs ->
  Py.is_digit c = false -> Py.has_char c "," = false ->
  Py.has_char c (String.concat "," freqs) = false.
Proof.
  intros H Hc Hs. apply PyFacts.has_char_concat; [exact Hs|].
  eapply Forall_impl; [|exact H]. intros f Hf. now apply digits_string_facts.
Qed.

(** C6.  A [GR3D_FREQ] token followed by [NN%@[f1,...,fn]], where [NN]
    has no percent sign and the [fi] are one or more non-empty strings of
    digits, stores [NN] as [GPU_UTIL] and, as [GPU_FREQ], the sequence of
    the [fi] each multiplied by 1,000,000 and written back in decimal, in
    the same order; the payload is consumed. *)
Theorem gr3d_freq_spec (buf : buffer) (util : string) (freqs rest : list string) :
  Py.has_char "%" util = false ->
  freqs <> [] ->
  Forall (fun f => f <> EmptyString /\ Py.all_chars Py.is_digit f = true) freqs ->
  _parse_tegra_stats buf
    ("GR3D_FREQ" :: (util ++ "%@[" ++ String.concat "," freqs ++ "]")%string :: rest) =
  Ok (Some "GR3D_FREQ",
      Dict.set "GPU_FREQ"
        (Seq (map (fun f => Py.str (Py.decimal f * 1000000)) freqs))
        (Dict.set "GPU_UTIL" (Scalar util) buf),
      rest).
Proof.
  intros Hu Hne Hd.
  remember (String.concat "," freqs) as body eqn:Hbody.
  assert (Hat : Py.has_char "@" body = false)
    by (rewrite Hbody; apply joined_digits_no_char;
        [exact Hd|reflexivity|reflexivity]).
  assert (Hl : Py.has_char "[" body = false)
    by (rewrite Hbody; apply joined_digits_no_char;
        [exact Hd|reflexivity|reflexivity]).
  assert (Hr : Py.has_char "]" body = false)
    by (rewrite Hbody; apply joined_digits_no_char;
        [exact Hd|reflexivity|reflexivity]).
  assert (H1 : Py.first_piece (Py.split "%" (util ++ "%@[" ++ body ++ "]")%string)
               = util) by (apply PyFacts.first_piece_app; exact Hu).
  assert (H2 : Py.last_piece (Py.split "@" (util ++ "%@[" ++ body ++ "]")%string)
               = ("[" ++ body ++ "]")%string).
  { change (util ++ "%@[" ++ body ++ "]")%string
      with (util ++ String "%" (String "@" ("[" ++ body ++ "]")))%string.
    replace (util ++ String "%" (String "@" ("[" ++ body ++ "]")))%string
      with ((util ++ "%") ++ String "@" ("[" ++ body ++ "]"))%string
      by (now rewrite PyFacts.append_assoc).
    apply PyFacts.last_piece_app. simpl.
    rewrite PyFacts.has_char_app, Hat. reflexivity. }
  assert (H3 : Py.remove_char "]" (Py.remove_char "[" ("[" ++ body ++ "]")%string)
               = body).
  { simpl. rewrite !PyFacts.remove_char_app.
    rewrite (PyFacts.remove_char_absent _ _ Hl). simpl.
    rewrite (PyFacts.remove_char_absent _ _ Hr).
    apply PyFacts.append_empty_r. }
  assert (H4 : Py.split "," body = freqs).
  { rewrite Hbody. apply PyFacts.split_concat; [exact Hne|].
    eapply Forall_impl; [|exact Hd]. intros f Hf.
    now apply digits_string_facts. }
  unfold _parse_tegra_stats. simpl. simpl in H1, H2.
  change ("[" ++ body ++ "]")%string with (String "[" (body ++ "]")) in H3.
  rewrite H1, H2, H3, H4.
  rewrite (map_result_ok _ (fun f => Py.str (Py.decimal f * 1000000))).
  - reflexivity.
  - eapply Forall_impl; [|exact Hd]. intros f [Hf1 Hf2].
    now rewrite (PyFacts.int_digits_string Hf1 Hf2).
Qed.

End Properties.

(* ================================================================== *)
(** ** The properties on concrete inputs *)
(* ================================================================== *)

(** C1.  The zeroing path does not reach the per-cluster and per-core
    series.  After a tick that dispatches two cluster frequencies and two
    core loads, a failing tick sends zeros under the recorded metric keys
    [tegrastats_gpu_freq_0], [tegrastats_cpu_usage_0] and so on, without
    an index; the sink does not know these names, logs them as
    unrecognised and keeps the last values of the series
    ([tegrastats_gpu_freq], index 0 and 1) and ([tegrastats_cpu_usage],
    index 0 and 2), while the series without index are set to zero. *)
Theorem zeroing_misses_indexed_series :
  let s1 := tick module_init env_indexed in
  let s2 := tick s1 env_failing in
  metric_set s1 =
    [ ("GPU_UTIL", ["tegrastats_gpu_util"]);
      ("GPU_FREQ", ["tegrastats_gpu_freq_0"; "tegrastats_gpu_freq_1"]);
      ("CPU", ["tegrastats_cpu_usage_0"; "tegrastats_cpu_usage_2"]);
      ("rosie-perceptio", ["tegrastats_per_process_gpu_mem"]) ] /\
  series (db s1) "tegrastats_gpu_util" ("GPU_UTIL", "0") = Some 45%Z /\
  series (db s1) "tegrastats_gpu_freq" ("GPU_FREQ", "0") = Some 204000000%Z /\
  series (db s1) "tegrastats_gpu_freq" ("GPU_FREQ", "1") = Some 204000000%Z /\
  series (db s1) "tegrastats_cpu_usage" ("CPU", "0") = Some 10%Z /\
  series (db s1) "tegrastats_cpu_usage" ("CPU", "2") = Some 30%Z /\
  skipn (length (received (db s1))) (received (db s2)) =
    [ zero_event "GPU_UTIL" "tegrastats_gpu_util";
      zero_event "GPU_FREQ" "tegrastats_gpu_freq_0";
      zero_event "GPU_FREQ" "tegrastats_gpu_freq_1";
      zero_event "CPU" "tegrastats_cpu_usage_0";
      zero_event "CPU" "tegrastats_cpu_usage_2";
      zero_event "rosie-perceptio" "tegrastats_per_process_gpu_mem" ] /\
  warnings (db s2) =
    [ Unrecognized "tegrastats_gpu_freq_0"; Unrecognized "tegrastats_gpu_freq_1";
      Unrecognized "tegrastats_cpu_usage_0"; Unrecognized "tegrastats_cpu_usage_2" ] /\
  series (db s2) "tegrastats_gpu_util" ("GPU_UTIL", "0") = Some 0%Z /\
  series (db s2) "tegrastats_per_process_gpu_mem" ("rosie-perceptio", "0")
    = Some 0%Z /\
  series (db s2) "tegrastats_gpu_freq" ("GPU_FREQ", "0") = Some 204000000%Z /\
  series (db s2) "tegrastats_gpu_freq" ("GPU_FREQ", "1") = Some 204000000%Z /\
  series (db s2) "tegrastats_cpu_usage" ("CPU", "0") = Some 10%Z /\
  series (db s2) "tegrastats_cpu_usage" ("CPU", "2") = Some 30%Z.
Proof. vm_compute. repeat split; reflexivity. Qed.


(** C6 on the payload [45%@[204,204]]. *)
Lemma gr3d_freq_spec_witness :
  Py.has_char "%" "45" = false /\
  _parse_tegra_stats [] ["GR3D_FREQ"; "45%@[204,204]"] =
  Ok (Some "GR3D_FREQ",
      [("GPU_UTIL", Scalar "45"); ("GPU_FREQ", Seq ["204000000"; "204000000"])],
      []).
Proof.
  split; [reflexivity|].
  refine (@gr3d_freq_spec [] "45" ["204"; "204"] [] eq_refl _ _).
  - discriminate.
  - repeat constructor; discriminate.
Defined.

(** C5 on a text with one process, and on a text with a short line. *)
Lemma per_process_parser_spec_witness :
  _parse_per_process_gpu_stats clients_text = Ok [("rosie-perceptio", 753528%Z)] /\
  (exists e, _parse_per_process_gpu_stats clients_text_short = Raise e) /\
  received (db (tick module_init
                  {| tegrastats_output := Ok tegrastats_line;
                     nvmap_clients_output := Ok clients_text_short |})) = [].
Proof.
  split; [|split].
  - refine (proj1 (@per_process_parser_spec ExampleFloat clients_text)
              [("rosie-perceptio", 753528%Z)] _).
    repeat constructor. exists "753528K". repeat split; reflexivity.
  - refine (proj1 (proj2 (proj2
              (@per_process_parser_spec ExampleFloat clients_text_short)) _)).
    apply Exists_cons_hd. vm_compute. lia.
  - refine (proj1 (proj2 (proj2 (proj2
              (@per_process_parser_spec ExampleFloat clients_text_short)) _)
              module_init
              {| tegrastats_output := Ok tegrastats_line;
                 nvmap_clients_output := Ok clients_text_short |} eq_refl)).
    apply Exists_cons_hd. vm_compute. lia.
Defined.

(** C8 on a line of the utility. *)
Lemma tokenize_idempotent_witness :
  tokenize tegrastats_line =
    Ok [ ("RAM", Scalar "2448"); ("CPU", Seq ["25"; "off"; "30"]);
         ("EMC_UTIL", Scalar "12"); ("EMC_FREQ", Scalar "1600000000");
         ("GPU_UTIL", Scalar "45"); ("GPU_FREQ", Seq ["204000000"; "204000000"]);
         ("NVDEC", Scalar "716000000"); ("CPU_TEMP", Scalar "29.5");
         ("GPU_TEMP", Scalar "28") ] /\
  tokenize_from
    [ ("RAM", Scalar "2448"); ("CPU", Seq ["25"; "off"; "30"]);
      ("EMC_UTIL", Scalar "12"); ("EMC_FREQ", Scalar "1600000000");
      ("GPU_UTIL", Scalar "45"); ("GPU_FREQ", Seq ["204000000"; "204000000"]);
      ("NVDEC", Scalar "716000000"); ("CPU_TEMP", Scalar "29.5");
      ("GPU_TEMP", Scalar "28") ] tegrastats_line =
    Ok [ ("RAM", Scalar "2448"); ("CPU", Seq ["25"; "off"; "30"]);
         ("EMC_UTIL", Scalar "12"); ("EMC_FREQ", Scalar "1600000000");
         ("GPU_UTIL", Scalar "45"); ("GPU_FREQ", Seq ["204000000"; "204000000"]);
         ("NVDEC", Scalar "716000000"); ("CPU_TEMP", Scalar "29.5");
         ("GPU_TEMP", Scalar "28") ].
Proof.
  split; [reflexivity|].
  refine (proj2 (proj2 (tokenize_idempotent tegrastats_line)) _ _).
  reflexivity.
Defined.


(** C10 on the RAM field: dispatched and zeroed under the same series. *)
Lemma observations_carry_both_labels_witness :
  received (db (produce_item module_init "RAM" (Scalar "12"))) =
    [GpuEvent "tegrastats_ram_usage" (VStr "12") "RAM" None] /\
  labelvalues_of (GpuEvent "tegrastats_ram_usage" (VStr "12") "RAM" None)
    = ("RAM", "0") /\
  In "tegrastats_ram_usage"
     (metric_keys_of "RAM"
        (metric_set (produce_item module_init "RAM" (Scalar "12")))) /\
  exists sent,
    received (db (_nullify_gpu_data (produce_item module_init "RAM" (Scalar "12"))))
      = received (db (produce_item module_init "RAM" (Scalar "12"))) ++ sent /\
    In (GpuEvent "tegrastats_ram_usage" VFloat0 "RAM" None) sent /\
    labelvalues_of (GpuEvent "tegrastats_ram_usage" VFloat0 "RAM" None)
      = ("RAM", "0").
Proof.
  pose proof (proj1 (proj2 (proj2 (@observations_carry_both_labels ExampleFloat)))
                module_init "RAM" "tegrastats_ram_usage" (Scalar "12") eq_refl)
    as [H1 [H2 H3]].
  split; [exact H1|]. split; [exact H2|]. split; [exact H3|].
  exact (proj2 (proj2 (proj2 (proj2 (@observations_carry_both_labels ExampleFloat))))
           (produce_item module_init "RAM" (Scalar "12"))
           "RAM" "tegrastats_ram_usage" H3).
Defined.

(* ================================================================== *)
(** ** Further properties: the branches of the tokenizer *)
(* ================================================================== *)

Unset Implicit Arguments.

Module BranchFacts.

Lemma prefix_has_char (c : ascii) (sub s : string) :
  String.prefix sub s = true -> Py.has_char c sub = true -> Py.has_char c s = true.
Proof.
  revert sub. induction s as [|b s IH]; intros [|a sub]; simpl;
    try (intros _ H; discriminate H); try (intros H; discriminate H).
  destruct (ascii_dec a b) as [->|]; [|intros H; discriminate H].
  intros Hp Hc. apply orb_true_iff in Hc. apply orb_true_iff.
  destruct Hc as [Hc|Hc]; [now left|right; now apply (IH sub)].
Qed.

(** A string that contains [sub] has every character of [sub]. *)
Lemma contains_has_char (c : ascii) (sub s : string) :
  Py.contains sub s = true -> Py.has_char c sub = true -> Py.has_char c s = true.
Proof.
  induction s as [|b s IH]; simpl; intros H Hc.
  - rewrite orb_false_r in H. destruct sub; simpl in *; congruence.
  - apply orb_true_iff in H. destruct H as [H|H].
    + exact (prefix_has_char c sub (String b s) H Hc).
    + rewrite (IH H Hc). apply orb_true_r.
Qed.

Lemma no_char_no_marker (c : ascii) (sub s : string) :
  Py.has_char c sub = true -> Py.has_char c s = false -> Py.contains sub s = false.
Proof.
  intros Hc Hs. destruct (Py.contains sub s) eqn:E; [|reflexivity].
  rewrite (contains_has_char c sub s E Hc) in Hs. discriminate.
Qed.

Lemma drop_last_snoc (s : string) (u : ascii) :
  Py.drop_last (s ++ String u EmptyString)%string = s.
Proof.
  induction s as [|a s IH]; [reflexivity|].
  simpl. rewrite IH. destruct (s ++ String u EmptyString)%string eqn:E;
    [now destruct s|reflexivity].
Qed.

Lemma has_char_snoc (c u : ascii) (s : string) :
  Py.has_char c s = false -> u <> c ->
  Py.has_char c (s ++ String u EmptyString)%string = false.
Proof.
  intros Hs Hu. rewrite PyFacts.has_char_app, Hs. simpl.
  destruct (Ascii.eqb_spec u c); [contradiction|reflexivity].
Qed.

End BranchFacts.

(** X1.  A [RAM] token stores the part of its payload before the first
    slash, replacing an earlier value and consuming the payload; a payload
    without a slash is stored whole. *)
Theorem ram_field_spec (buf : buffer) (used : string) (rest : list string) :
  Py.has_char "/" used = false ->
  (forall tail : string,
      _parse_tegra_stats buf ("RAM" :: (used ++ String "/" tail)%string :: rest) =
      Ok (Some "RAM", Dict.set "RAM" (Scalar used) buf, rest)) /\
  _parse_tegra_stats buf ("RAM" :: used :: rest) =
    Ok (Some "RAM", Dict.set "RAM" (Scalar used) buf, rest).
Proof.
  intros H. split.
  - intros tail. unfold _parse_tegra_stats. simpl.
    now rewrite (PyFacts.first_piece_app _ _ tail H).
  - unfold _parse_tegra_stats. simpl.
    now rewrite (PyFacts.split_no_sep _ _ H).
Qed.

Lemma ram_field_spec_witness :
  _parse_tegra_stats [("RAM", Scalar "1")] ["RAM"; "1234/8192MB"; "SWAP"] =
  Ok (Some "RAM", [("RAM", Scalar "1234")], ["SWAP"]).
Proof.
  exact (proj1 (@ram_field_spec [("RAM", Scalar "1")] "1234" ["SWAP"] eq_refl)
           "8192MB").
Defined.

Module IntFacts.

Lemma has_char_lstrip (c : ascii) (s : string) :
  Py.is_space c = false -> Py.has_char c (Py.lstrip s) = Py.has_char c s.
Proof.
  intros Hc. induction s as [|a s IH]; [reflexivity|]. simpl.
  destruct (Py.is_space a) eqn:Ha; [|reflexivity].
  rewrite IH. destruct (Ascii.eqb_spec a c) as [->|]; [congruence|reflexivity].
Qed.

Lemma has_char_rstrip (c : ascii) (s : string) :
  Py.is_space c = false -> Py.has_char c (Py.rstrip s) = Py.has_char c s.
Proof.
  intros Hc. induction s as [|a s IH]; [reflexivity|]. simpl.
  destruct (Py.rstrip s) as [|b r] eqn:E.
  - simpl in IH. rewrite <- IH. destruct (Py.is_space a) eqn:Ha; simpl.
    + destruct (Ascii.eqb_spec a c) as [->|]; [congruence|reflexivity].
    + reflexivity.
  - simpl. simpl in IH. now rewrite IH.
Qed.

Lemma int_digits_rejects (c : ascii) (s : string) (acc : Z) (b : bool) :
  Py.is_digit c = false -> c <> "_"%char ->
  Py.has_char c s = true -> Py.int_digits acc b s = None.
Proof.
  intros Hd Hu. revert acc b. induction s as [|a s IH]; intros acc b H;
    [discriminate H|].
  simpl in *. destruct (Ascii.eqb_spec a c) as [->|Hne].
  - rewrite Hd. destruct (Ascii.eqb_spec c "_"); [contradiction|reflexivity].
  - simpl in H. destruct (Py.is_digit a); [now apply IH|].
    destruct (Ascii.eqb a "_"); [|reflexivity].
    destruct b; [now apply IH|reflexivity].
Qed.

(** [int] refuses a text with a character that is no digit, underscore,
    sign or white space. *)
Lemma int_rejects (c : ascii) (s : string) :
  Py.is_digit c = false -> Py.is_space c = false ->
  c <> "_"%char -> c <> "+"%char -> c <> "-"%char ->
  Py.has_char c s = true -> Py.int s = Raise ValueError.
Proof.
  intros Hd Hs Hu Hp Hm H. unfold Py.int, Py.strip.
  assert (Hb : Py.has_char c (Py.rstrip (Py.lstrip s)) = true)
    by now rewrite has_char_rstrip, has_char_lstrip.
  destruct (Py.rstrip (Py.lstrip s)) as [|a r]; [reflexivity|].
  destruct (Ascii.eqb_spec a "+") as [->|_].
  - cbn [Py.has_char] in Hb. apply orb_true_iff in Hb.
    destruct Hb as [Hb|Hb]; [apply Ascii.eqb_eq in Hb; congruence|].
    now rewrite (int_digits_rejects c r 0 false Hd Hu Hb).
  - destruct (Ascii.eqb_spec a "-") as [->|_].
    + cbn [Py.has_char] in Hb. apply orb_true_iff in Hb.
      destruct Hb as [Hb|Hb]; [apply Ascii.eqb_eq in Hb; congruence|].
      now rewrite (int_digits_rejects c r 0 false Hd Hu Hb).
    + now rewrite (int_digits_rejects c (String a r) 0 false Hd Hu Hb).
Qed.

Lemma has_char_remove_char (c x : ascii) (s : string) :
  x <> c -> Py.has_char c (Py.remove_char x s) = Py.has_char c s.
Proof.
  intros Hx. induction s as [|a s IH]; [reflexivity|]. simpl.
  destruct (Ascii.eqb_spec a x) as [->|]; simpl; rewrite IH; [|reflexivity].
  destruct (Ascii.eqb_spec x c); [contradiction|reflexivity].
Qed.

(** A character other than the separator is in one of the pieces. *)
Lemma has_char_split (c sep : ascii) (s : string) :
  sep <> c -> Py.has_char c s = true ->
  Exists (fun p => Py.has_char c p = true) (Py.split sep s).
Proof.
  intros Hs. induction s as [|a s IH]; [discriminate|]. simpl.
  destruct (Ascii.eqb_spec a sep) as [->|Hne].
  - destruct (Ascii.eqb_spec sep c); [contradiction|]. simpl.
    intros H. apply Exists_cons_tl. now apply IH.
  - intros H. destruct (Py.split sep s) as [|h t] eqn:E.
    + pose proof (PyFacts.split_not_nil sep s). congruence.
    + apply orb_true_iff in H. destruct H as [H|H].
      * apply Exists_cons_hd. simpl. now rewrite H.
      * specialize (IH H). inversion IH as [? ? Hh|? ? Ht]; subst.
        -- apply Exists_cons_hd. simpl. rewrite Hh. apply orb_true_r.
        -- now apply Exists_cons_tl.
Qed.

Lemma map_result_raises {A B} (f : A -> result B) (e : exn) (l : list A) :
  (forall a, f a = Raise e \/ exists b, f a = Ok b) ->
  Exists (fun a => f a = Raise e) l -> map_result f l = Raise e.
Proof.
  intros Hf H. induction H as [a l Ha|a l _ IH]; simpl.
  - now rewrite Ha.
  - destruct (Hf a) as [->|[b ->]]; [reflexivity|]. simpl. now rewrite IH.
Qed.

End IntFacts.

(** X2.  An [EMC_FREQ] token followed by [NN%@f], with [NN] free of
    percent signs and [f] a non-empty string of digits, stores [NN] as
    [EMC_UTIL] and [f] times 1,000,000, in decimal, as [EMC_FREQ]. *)
Theorem emc_freq_spec (buf : buffer) (util freq : string) (rest : list string) :
  Py.has_char "%" util = false ->
  freq <> EmptyString -> Py.all_chars Py.is_digit freq = true ->
  _parse_tegra_stats buf ("EMC_FREQ" :: (util ++ "%@" ++ freq)%string :: rest) =
  Ok (Some "EMC_FREQ",
      Dict.set "EMC_FREQ" (Scalar (Py.str (Py.decimal freq * 1000000)))
        (Dict.set "EMC_UTIL" (Scalar util) buf),
      rest).
Proof.
  intros Hu Hne Hd.
  assert (H1 : Py.first_piece (Py.split "%" (util ++ "%@" ++ freq)%string) = util)
    by (apply PyFacts.first_piece_app; exact Hu).
  assert (H2 : Py.last_piece (Py.split "@" (util ++ "%@" ++ freq)%string) = freq).
  { change (util ++ "%@" ++ freq)%string
      with (util ++ String "%" (String "@" freq))%string.
    replace (util ++ String "%" (String "@" freq))%string
      with ((util ++ "%") ++ String "@" freq)%string
      by (now rewrite PyFacts.append_assoc).
    apply PyFacts.last_piece_app.
    now apply PyFacts.digits_has_char. }
  unfold _parse_tegra_stats. simpl. simpl in H1, H2.
  rewrite H1, H2, (PyFacts.int_digits_string Hne Hd). reflexivity.
Qed.

Lemma emc_freq_spec_witness :
  _parse_tegra_stats [] ["EMC_FREQ"; "12%@1600"] =
  Ok (Some "EMC_FREQ",
      [("EMC_UTIL", Scalar "12"); ("EMC_FREQ", Scalar "1600000000")], []).
Proof.
  refine (emc_freq_spec [] "12" "1600" [] eq_refl _ eq_refl). discriminate.
Defined.

(** X3.  A payload of [EMC_FREQ] or [GR3D_FREQ] that has a percent sign
    and no frequency part after an at sign is refused: the call raises
    [ValueError] and stores nothing. *)
Theorem payload_without_frequency_raises (buf : buffer) (payload : string)
  (rest : list string) :
  Py.has_char "@" payload = false ->
  Py.has_char "%" payload = true ->
  _parse_tegra_stats buf ("EMC_FREQ" :: payload :: rest) = Raise ValueError /\
  _parse_tegra_stats buf ("GR3D_FREQ" :: payload :: rest) = Raise ValueError.
Proof.
  intros Hat Hp.
  assert (Hl : Py.last_piece (Py.split "@" payload) = payload)
    by now rewrite (PyFacts.split_no_sep _ _ Hat).
  split; unfold _parse_tegra_stats; simpl; rewrite Hl.
  - rewrite (IntFacts.int_rejects "%" payload); try reflexivity;
      try discriminate; exact Hp.
  - rewrite (IntFacts.map_result_raises _ ValueError); [reflexivity| |].
    + intros g. destruct (Py.int g) as [n|e] eqn:E; simpl; [right; eauto|].
      left. unfold Py.int in E.
      destruct (match Py.strip g with
                | EmptyString => None
                | String c r =>
                    if Ascii.eqb c "+" then Py.int_digits 0 false r
                    else if Ascii.eqb c "-"
                         then option_map Z.opp (Py.int_digits 0 false r)
                         else Py.int_digits 0 false (Py.strip g)
                end); congruence.
    + assert (Hp' : Py.has_char "%"
                      (Py.remove_char "]" (Py.remove_char "[" payload)) = true)
        by (rewrite !IntFacts.has_char_remove_char; [exact Hp|discriminate..]).
      pose proof (IntFacts.has_char_split "%" "," _ ltac:(discriminate) Hp') as Hex.
      eapply Exists_impl; [|exact Hex]. intros g Hg. simpl.
      rewrite (IntFacts.int_rejects "%" g); try reflexivity;
        try discriminate; exact Hg.
Qed.

Lemma payload_without_frequency_raises_witness :
  _parse_tegra_stats [] ["GR3D_FREQ"; "0%"] = Raise ValueError /\
  _parse_tegra_stats [] ["EMC_FREQ"; "0%"] = Raise ValueError.
Proof.
  pose proof (payload_without_frequency_raises [] "0%" [] eq_refl eq_refl)
    as [H1 H2].
  split; [exact H2|exact H1].
Defined.

(** X4.  For each of [NVENC], [NVENC1], [NVDEC], [NVDEC1]: the payload
    [off] is consumed and leaves the sample as it is, so the field is
    absent unless an earlier token stored it; a payload of digits, alone
    or after an at sign, is stored under the token's own name, times
    1,000,000. *)
Theorem nv_field_spec (buf : buffer) (entity : string) (rest : list string) :
  In entity ["NVENC"; "NVENC1"; "NVDEC"; "NVDEC1"] ->
  _parse_tegra_stats buf (entity :: "off" :: rest) = Ok (Some entity, buf, rest) /\
  (forall pre freq : string,
      freq <> EmptyString -> Py.all_chars Py.is_digit freq = true ->
      _parse_tegra_stats buf (entity :: freq :: rest) =
        Ok (Some entity,
            Dict.set entity (Scalar (Py.str (Py.decimal freq * 1000000))) buf,
            rest) /\
      _parse_tegra_stats buf (entity :: (pre ++ String "@" freq)%string :: rest) =
        Ok (Some entity,
            Dict.set entity (Scalar (Py.str (Py.decimal freq * 1000000))) buf,
            rest)).
Proof.
  intros Hin.
  assert (Hoff : forall s, Py.has_char "o" s = false -> (s =? "off") = false).
  { intros s Hs. destruct (String.eqb_spec s "off") as [->|]; [discriminate Hs|].
    reflexivity. }
  assert (Hoff' : forall pre freq,
             ((pre ++ String "@" freq)%string =? "off") = false).
  { intros pre freq. destruct (String.eqb_spec (pre ++ String "@" freq) "off")
      as [E|]; [|reflexivity].
    assert (Py.has_char "@" (pre ++ String "@" freq)%string = true) as H
        by (rewrite PyFacts.has_char_app; simpl; apply orb_true_r).
    rewrite E in H. discriminate H. }
  simpl in Hin.
  destruct Hin as [<-|[<-|[<-|[<-|[]]]]];
    (split; [reflexivity|]); intros pre freq Hne Hd;
    assert (Hat : Py.has_char "@" freq = false)
      by (now apply PyFacts.digits_has_char);
    (split;
     [ unfold _parse_tegra_stats; simpl;
       rewrite (Hoff freq) by (now apply PyFacts.digits_has_char); simpl;
       rewrite (PyFacts.split_no_sep _ _ Hat); unfold Py.last_piece; simpl;
       now rewrite (PyFacts.int_digits_string Hne Hd)
     | unfold _parse_tegra_stats; simpl;
       rewrite Hoff'; simpl;
       rewrite (PyFacts.last_piece_app "@" pre freq Hat);
       now rewrite (PyFacts.int_digits_string Hne Hd) ]).
Qed.

Lemma nv_field_spec_witness :
  _parse_tegra_stats [] ["NVDEC"; "off"] = Ok (Some "NVDEC", [], []) /\
  _parse_tegra_stats [] ["NVDEC"; "716"] =
    Ok (Some "NVDEC", [("NVDEC", Scalar "716000000")], []).
Proof.
  pose proof (nv_field_spec [] "NVDEC" []
                ltac:(simpl; tauto)) as [H1 H2].
  split; [exact H1|].
  exact (proj1 (H2 EmptyString "716" ltac:(discriminate) eq_refl)).
Defined.

(** X5.  A token that starts with [GPU@] or [gpu@], followed by a text
    without an at sign and one closing character, stores that text as
    [GPU_TEMP]; the same with [CPU@] or [cpu@] stores it as [CPU_TEMP].
    No following token is consumed, and the other key is not written. *)
Theorem temperature_token_spec (buf : buffer) (temp : string) (unit_ : ascii)
  (rest : list string) :
  Py.has_char "@" temp = false -> unit_ <> "@"%char ->
  let tail := (temp ++ String unit_ EmptyString)%string in
  _parse_tegra_stats buf (("GPU@" ++ tail)%string :: rest) =
    Ok (Some ("GPU@" ++ tail)%string, Dict.set "GPU_TEMP" (Scalar temp) buf, rest) /\
  _parse_tegra_stats buf (("gpu@" ++ tail)%string :: rest) =
    Ok (Some ("gpu@" ++ tail)%string, Dict.set "GPU_TEMP" (Scalar temp) buf, rest) /\
  _parse_tegra_stats buf (("CPU@" ++ tail)%string :: rest) =
    Ok (Some ("CPU@" ++ tail)%string, Dict.set "CPU_TEMP" (Scalar temp) buf, rest) /\
  _parse_tegra_stats buf (("cpu@" ++ tail)%string :: rest) =
    Ok (Some ("cpu@" ++ tail)%string, Dict.set "CPU_TEMP" (Scalar temp) buf, rest).
Proof.
  intros Ht Hu tail.
  assert (Hat : Py.has_char "@" tail = false)
    by (apply BranchFacts.has_char_snoc; assumption).
  assert (Hm : forall sub, Py.has_char "@" sub = true ->
                           Py.contains sub tail = false)
    by (intros sub Hs; exact (BranchFacts.no_char_no_marker "@" sub tail Hs Hat)).
  assert (Hs : Py.split "@" tail = [tail]) by (now apply PyFacts.split_no_sep).
  assert (Hd : Py.drop_last tail = temp) by apply BranchFacts.drop_last_snoc.
  assert (Hp : String.prefix EmptyString tail = true) by (now destruct tail).
  repeat split; unfold _parse_tegra_stats; simpl;
    rewrite ?(Hm "GPU@" eq_refl), ?(Hm "gpu@" eq_refl),
            ?(Hm "CPU@" eq_refl), ?(Hm "cpu@" eq_refl), ?Hp; simpl;
    rewrite Hs; simpl; rewrite Hd; reflexivity.
Qed.

Lemma temperature_token_spec_witness :
  _parse_tegra_stats [] ["GPU@28.5C"; "CPU"] =
    Ok (Some "GPU@28.5C", [("GPU_TEMP", Scalar "28.5")], ["CPU"]).
Proof.
  exact (proj1 (temperature_token_spec [] "28.5" "C" ["CPU"] eq_refl
                  ltac:(discriminate))).
Defined.

(** X6.  A token that is none of the eight field names and has none of
    the four temperature markers in it is consumed alone and writes
    nothing; in particular every token without an at sign that is not a
    field name, the empty token of a doubled space included. *)
Theorem other_token_is_skipped (buf : buffer) (entity : string)
  (rest : list string) :
  ~ In entity ["RAM"; "CPU"; "EMC_FREQ"; "GR3D_FREQ";
               "NVENC"; "NVENC1"; "NVDEC"; "NVDEC1"] ->
  (Py.contains "GPU@" entity || Py.contains "gpu@" entity
   || Py.contains "CPU@" entity || Py.contains "cpu@" entity = false
   \/ Py.has_char "@" entity = false) ->
  _parse_tegra_stats buf (entity :: rest) = Ok (Some entity, buf, rest).
Proof.
  intros Hn Hm.
  assert (H4 : Py.contains "GPU@" entity = false /\
               Py.contains "gpu@" entity = false /\
               Py.contains "CPU@" entity = false /\
               Py.contains "cpu@" entity = false).
  { destruct Hm as [Hm|Hm].
    - apply orb_false_iff in Hm. destruct Hm as [Hm H4].
      apply orb_false_iff in Hm. destruct Hm as [Hm H3].
      apply orb_false_iff in Hm. tauto.
    - repeat split; apply (BranchFacts.no_char_no_marker "@"); auto. }
  destruct H4 as [G1 [G2 [C1 C2]]].
  unfold _parse_tegra_stats. cbn [existsb].
  repeat match goal with
         | |- context [String.eqb entity ?a] =>
             rewrite (proj2 (String.eqb_neq entity a))
               by (intros ->; apply Hn; cbn [In]; tauto)
         end.
  rewrite G1, G2, C1, C2. reflexivity.
Qed.

Lemma other_token_is_skipped_witness :
  _parse_tegra_stats [("RAM", Scalar "1")] [""; "SWAP"; "0/1978MB"] =
    Ok (Some "", [("RAM", Scalar "1")], ["SWAP"; "0/1978MB"]) /\
  _parse_tegra_stats [("RAM", Scalar "1")] ["PLL@27C"] =
    Ok (Some "PLL@27C", [("RAM", Scalar "1")], []).
Proof.
  split.
  - refine (other_token_is_skipped _ "" _ _ (or_intror eq_refl)).
    cbn [In]. intuition discriminate.
  - refine (other_token_is_skipped _ "PLL@27C" _ _ (or_introl eq_refl)).
    cbn [In]. intuition discriminate.
Defined.

(** X7.  A field name that needs a payload and is the last token raises
    [StopIteration], whatever the sample holds; the loop passes the
    exception on, so the line is refused as a whole. *)
Theorem missing_payload_raises (buf : buffer) (entity : string) :
  In entity ["RAM"; "CPU"; "EMC_FREQ"; "GR3D_FREQ";
             "NVENC"; "NVENC1"; "NVDEC"; "NVDEC1"] ->
  _parse_tegra_stats buf [entity] = Raise StopIteration /\
  forall fuel, parse_loop (S fuel) buf [entity] = Some (Raise StopIteration).
Proof.
  intros Hin. cbn [In] in Hin.
  repeat (destruct Hin as [<-|Hin]; [split; [reflexivity|intros; reflexivity]|]).
  contradiction.
Qed.

Lemma missing_payload_raises_witness :
  tokenize "RAM 1234/8192MB CPU" = Raise StopIteration /\
  _parse_tegra_stats [("RAM", Scalar "1234")] ["CPU"] = Raise StopIteration.
Proof.
  split; [reflexivity|].
  exact (proj1 (missing_payload_raises [("RAM", Scalar "1234")] "CPU"
                  ltac:(cbn [In]; tauto))).
Defined.

(* ================================================================== *)
(** ** Further properties: invariants of the parsers *)
(* ================================================================== *)

Module ShapeFacts.

Lemma in_set {V : Type} (k k' : string) (v v' : V) (d : Dict.t V) :
  In (k', v') (Dict.set k v d) -> (k', v') = (k, v) \/ In (k', v') d.
Proof.
  induction d as [|[k0 v0] d IH]; simpl.
  - intros [H|[]]. now left.
  - destruct (String.eqb k0 k); simpl.
    + intros [H|H]; [now left|right; now right].
    + intros [H|H]; [right; now left|].
      destruct (IH H) as [E|E]; [now left|right; now right].
Qed.

Lemma nv_not_indexed (e : string) :
  existsb (String.eqb e) ["NVENC"; "NVENC1"; "NVDEC"; "NVDEC1"] = true ->
  (String.eqb e "CPU" || String.eqb e "GPU_FREQ") = false.
Proof.
  intros H. apply existsb_exists in H. destruct H as [x [Hx He]].
  apply String.eqb_eq in He. subst x. cbn [In] in Hx.
  destruct Hx as [<-|[<-|[<-|[<-|[]]]]]; reflexivity.
Qed.

Lemma step_writes_shaped (toks : list string) e ws it :
  step_writes toks = Ok (e, ws, it) -> Forall write_shaped ws.
Proof.
  intros H. pose proof (@TokenizerFacts.step_writes_spec toks e ws it H) as [Hk _].
  revert H Hk. destruct toks as [|entity rest].
  - simpl. intros [= <- <- <-] _. constructor.
  - unfold step_writes.
    TokenizerFacts.split_entity entity; repeat TokenizerFacts.split_result;
      intros H; try discriminate H; injection H as <- <- <-; intros Hk;
      repeat match goal with
             | H : Forall _ (_ :: _) |- _ =>
                 let a := fresh in let b := fresh in
                 inversion H as [|? ? a b]; subst; clear H
             end;
      repeat (apply Forall_cons;
              [split; [assumption|first [reflexivity
                                        |symmetry; now apply nv_not_indexed]]|]);
      apply Forall_nil.
Qed.

Lemma loop_writes_shaped (fuel : nat) (toks : list string) ws :
  loop_writes fuel toks = Some (Ok ws) -> Forall write_shaped ws.
Proof.
  revert toks ws. induction fuel as [|fuel IH]; intros toks ws; [discriminate|].
  simpl. destruct (step_writes toks) as [[[[e|] ws0] it]|err] eqn:E;
    try discriminate.
  - apply step_writes_shaped in E.
    destruct (loop_writes fuel it) as [[ws'|err]|] eqn:L; try discriminate.
    intros [= <-]. apply Forall_app. split; [exact E|]. now apply (IH it).
  - apply step_writes_shaped in E. now intros [= <-].
Qed.

Lemma apply_write_shaped (buf : buffer) (w : write) :
  write_shaped w -> well_shaped buf -> well_shaped (apply_write buf w).
Proof.
  intros Hw Hb k v Hin.
  assert (In (k, v) (Dict.set (write_key w) (write_value w) buf) -> 
          In k field_keys /\
          is_seq v = (String.eqb k "CPU" || String.eqb k "GPU_FREQ")) as Hset.
  { intros H. apply in_set in H. destruct H as [[= -> ->]|H]; [exact Hw|].
    now apply Hb. }
  destruct w as [k0 v0|k0 v0]; simpl in *; [now apply Hset|].
  destruct (Dict.mem k0 buf); simpl in Hin; [now apply Hb|now apply Hset].
Qed.

Lemma apply_writes_shaped (ws : list write) (buf : buffer) :
  Forall write_shaped ws -> well_shaped buf -> well_shaped (apply_writes ws buf).
Proof.
  intros H. revert buf. induction H as [|w ws Hw _ IH]; intros buf Hb; [exact Hb|].
  simpl. apply IH. now apply apply_write_shaped.
Qed.

End ShapeFacts.

(** X8.  Whatever the line, a sample the tokenizer returns has each key
    once, only field keys, a list of strings under [CPU] and [GPU_FREQ]
    and one string under every other key: the dispatcher never receives a
    string where it iterates, nor a list where it sends one value. *)
Theorem tokenize_well_shaped (line : string) (buf : buffer) :
  tokenize line = Ok buf -> NoDup (Dict.keys buf) /\ well_shaped buf.
Proof.
  unfold tokenize, tokenize_from.
  rewrite TokenizerFacts.parse_loop_writes.
  destruct (loop_writes (S (length (Py.split " " line))) (Py.split " " line))
    as [[ws|e]|] eqn:L; try discriminate.
  intros [= <-]. split.
  - apply TokenizerFacts.NoDup_apply_writes. constructor.
  - apply ShapeFacts.apply_writes_shaped.
    + exact (ShapeFacts.loop_writes_shaped _ _ _ L).
    + intros k v [].
Qed.

Lemma tokenize_well_shaped_witness :
  NoDup (Dict.keys [("RAM", Scalar "12"); ("CPU", Seq ["10"; "off"])]) /\
  well_shaped [("RAM", Scalar "12"); ("CPU", Seq ["10"; "off"])].
Proof.
  exact (tokenize_well_shaped "RAM 12/34MB CPU [10%@102,off] CPU 621/621"
           [("RAM", Scalar "12"); ("CPU", Seq ["10"; "off"])] eq_refl).
Defined.

Module ProcessFacts.

Lemma slice_short {A} (l : list A) : length l <= 2 -> Py.slice_1_m1 l = [].
Proof.
  destruct l as [|a [|b [|c l]]]; simpl; intros H; try reflexivity. lia.
Qed.

Lemma parse_process_info_keys (d d' : Dict.t Z) (line : string) :
  parse_process_info d line = Ok d' ->
  exists name n,
    nth_error (Py.split_ws line) 1 = Some name /\ d' = Dict.set name n d.
Proof.
  unfold parse_process_info, Py.index, Py.bind.
  destruct (nth_error (Py.split_ws line) 3) as [amount|];
    [|intros H; discriminate H].
  destruct (Py.int (Py.drop_last amount)) as [n|]; [|intros H; discriminate H].
  destruct (nth_error (Py.split_ws line) 1) as [name|];
    [|intros H; discriminate H].
  intros [= <-]. now exists name, n.
Qed.

Lemma parse_process_lines_keys (lines : list string) (d d' : Dict.t Z) :
  parse_process_lines d lines = Ok d' ->
  NoDup (Dict.keys d) ->
  NoDup (Dict.keys d') /\
  forall k, In k (Dict.keys d') ->
            In k (Dict.keys d) \/
            exists line, In line lines /\ nth_error (Py.split_ws line) 1 = Some k.
Proof.
  revert d. induction lines as [|line lines IH]; intros d; simpl.
  - intros [= <-] Hnd. split; [exact Hnd|]. intros k Hk. now left.
  - destruct (parse_process_info d line) as [d1|] eqn:E; simpl; [|discriminate].
    intros H Hnd. apply parse_process_info_keys in E.
    destruct E as [name [n [Hname ->]]].
    destruct (IH _ H (@DictFacts.NoDup_keys_set _ name n d Hnd)) as [Hnd' Hk'].
    split; [exact Hnd'|]. intros k Hk. destruct (Hk' k Hk) as [Hin|[l [Hl Hn]]].
    + rewrite DictFacts.keys_set in Hin. destruct (Dict.mem name d).
      * now left.
      * apply in_app_or in Hin. destruct Hin as [Hin|[<-|[]]]; [now left|].
        right. exists line. split; [now left|exact Hname].
    + right. exists l. split; [now right|exact Hn].
Qed.

End ProcessFacts.

(** X9.  The per-process parser reads nothing from a text of one or two
    lines (a header alone, or a header and the closing line): the result
    is the empty map.  Whenever it returns a map, each process name is in
    it once, and each name in it is the second field of one of the lines
    between the first and the last. *)
Theorem per_process_map_spec (text : string) :
  (length (Py.split "010" text) <= 2 ->
   _parse_per_process_gpu_stats text = Ok []) /\
  (forall usage,
      _parse_per_process_gpu_stats text = Ok usage ->
      NoDup (Dict.keys usage) /\
      forall k, In k (Dict.keys usage) ->
                exists line,
                  In line (Py.slice_1_m1 (Py.split "010" text)) /\
                  nth_error (Py.split_ws line) 1 = Some k).
Proof.
  split.
  - intros H. unfold _parse_per_process_gpu_stats.
    now rewrite (ProcessFacts.slice_short _ H).
  - intros usage H. unfold _parse_per_process_gpu_stats in H.
    destruct (ProcessFacts.parse_process_lines_keys _ _ _ H (NoDup_nil _))
      as [Hnd Hk].
    split; [exact Hnd|]. intros k Hin.
    destruct (Hk k Hin) as [[]|Hl]. exact Hl.
Qed.

Lemma per_process_map_spec_witness :
  _parse_per_process_gpu_stats "Client Process PID Size" = Ok [] /\
  NoDup (Dict.keys [("rosie-perceptio", 753528%Z)]).
Proof.
  split.
  - exact (proj1 (per_process_map_spec "Client Process PID Size")
             ltac:(vm_compute; lia)).
  - exact (proj1 (proj2 (per_process_map_spec clients_text)
                    [("rosie-perceptio", 753528%Z)] eq_refl)).
Defined.

(* ================================================================== *)
(** ** Further properties: the sink across calls and ticks *)
(* ================================================================== *)

Section SinkProperties.
Context {PF : PyFloat}.

Lemma lower_char_idempotent (c : ascii) :
  Py.lower_char (Py.lower_char c) = Py.lower_char c.
Proof. destruct c as [[] [] [] [] [] [] [] []]; reflexivity. Qed.

Lemma lower_idempotent (s : string) : Py.lower (Py.lower s) = Py.lower s.
Proof.
  induction s as [|c s IH]; [reflexivity|].
  simpl. now rewrite lower_char_idempotent, IH.
Qed.

Lemma set_set {V : Type} (k : string) (v v0 : V) (d : Dict.t V) :
  Dict.set k v (Dict.set k v0 d) = Dict.set k v d.
Proof.
  induction d as [|[k1 v1] d IH]; simpl.
  - now rewrite String.eqb_refl.
  - destruct (String.eqb k1 k) eqn:E; simpl.
    + now rewrite String.eqb_refl.
    + now rewrite E, IH.
Qed.

(** The gauges after [store]: untouched for an unknown name; otherwise
    only the gauge of the message's name is replaced or added, with an
    unchanged help text or the one of the table. *)
Lemma store_map_cases (d : DataBaseProm) (m : msg) :
  _metrics_map (store d m) = _metrics_map d \/
  exists g',
    _metrics_map (store d m) = Dict.set (Py.lower (msg_key m)) g' (_metrics_map d) /\
    ((exists g, Dict.get (Py.lower (msg_key m)) (_metrics_map d) = Some g /\
                documentation g' = documentation g) \/
     (Dict.get (Py.lower (msg_key m)) (_metrics_map d) = None /\
      Dict.get (Py.lower (msg_key m)) help_text = Some (documentation g'))).
Proof.
  unfold store. set (n := Py.lower (msg_key m)). unfold Dict.mem.
  destruct (Dict.get n (_metrics_map d)) as [g|] eqn:G; cbv iota.
  - rewrite G. right.
    destruct (float (msg_value m)); eexists; (split; [reflexivity|]); left;
      exists g; (split; [reflexivity|]); unfold gauge_set, labels;
      destruct (child_get (labelvalues_of m) (children g)); reflexivity.
  - destruct (Dict.get n help_text) as [h|] eqn:H; [|now left].
    right. rewrite (@DictFacts.get_set_same _ n _ (_metrics_map d)).
    destruct (float (msg_value m)); cbv iota; cbn [_metrics_map];
      rewrite set_set; eexists; (split; [reflexivity|]); right;
      split; reflexivity.
Qed.

Lemma registered_store (d : DataBaseProm) (m : msg) :
  registered_from_table d -> registered_from_table (store d m).
Proof.
  intros [Hnd Hdoc]. unfold registered_from_table.
  destruct (store_map_cases d m) as [->|[g' [-> Hg]]]; [now split|].
  split; [now apply DictFacts.NoDup_keys_set|].
  intros name g. rewrite DictFacts.get_set.
  destruct (String.eqb_spec (Py.lower (msg_key m)) name) as [<-|];
    [|apply Hdoc].
  intros [= <-]. destruct Hg as [[g0 [G0 ->]]|[_ H]]; [now apply Hdoc|exact H].
Qed.

Lemma registered_fold_store (evs : list msg) (d : DataBaseProm) :
  registered_from_table d -> registered_from_table (fold_left store evs d).
Proof.
  revert d. induction evs as [|m evs IH]; intros d H; [exact H|].
  simpl. apply IH. now apply registered_store.
Qed.

Lemma mem_store (d : DataBaseProm) (m : msg) (name : string) :
  Dict.mem name (_metrics_map d) = true ->
  Dict.mem name (_metrics_map (store d m)) = true.
Proof.
  intros H. destruct (store_map_cases d m) as [->|[g' [-> _]]]; [exact H|].
  rewrite DictFacts.mem_set, H. apply orb_true_r.
Qed.

Lemma run_fold (P : DataBaseProm -> Prop) :
  (forall d m, P d -> P (store d m)) ->
  forall (envs : list tick_env) (self : GpuModule),
    P (db self) -> P (db (_process_gpu_stats self envs)).
Proof.
  intros Hstore.
  assert (Hfold : forall evs d, P d -> P (fold_left store evs d)).
  { induction evs as [|m evs IH]; intros d H; [exact H|].
    simpl. apply IH. now apply Hstore. }
  induction envs as [|env envs IH]; intros self H; [exact H|].
  unfold _process_gpu_stats. simpl. apply IH.
  rewrite db_tick. now apply Hfold.
Qed.

(** X10.  The sink registers each metric name once and only with the
    help text of its table: this holds at the start, after every call of
    [store], and after any run of ticks; and a registered name stays
    registered. *)
Theorem registration_invariant :
  registered_from_table DataBaseProm_init /\
  (forall (d : DataBaseProm) (m : msg),
      registered_from_table d ->
      registered_from_table (store d m) /\
      forall name, Dict.mem name (_metrics_map d) = true ->
                   Dict.mem name (_metrics_map (store d m)) = true) /\
  (forall (self : GpuModule) (envs : list tick_env),
      registered_from_table (db self) ->
      registered_from_table (db (_process_gpu_stats self envs)) /\
      forall name, Dict.mem name (_metrics_map (db self)) = true ->
                   Dict.mem name
                     (_metrics_map (db (_process_gpu_stats self envs))) = true).
Proof.
  split; [|split].
  - split; [constructor|]. intros name g H. discriminate H.
  - intros d m H. split; [now apply registered_store|].
    intros name. apply mem_store.
  - intros self envs H. split.
    + now apply (run_fold registered_from_table registered_store).
    + intros name Hn.
      apply (run_fold (fun d => Dict.mem name (_metrics_map d) = true));
        [|exact Hn].
      intros d m. apply mem_store.
Qed.

Lemma series_store_persist (d : DataBaseProm) (m : msg) name lv :
  series d name lv <> None -> series (store d m) name lv <> None.
Proof.
  intros H. rewrite series_store.
  destruct (_ && _); [|exact H].
  destruct (float (msg_value m)); [discriminate|].
  destruct (series d name lv); [discriminate|congruence].
Qed.

(** X11.  A series the sink exposes is never removed: neither by a call
    of [store], whatever the message, nor by any run of ticks, failing or
    not. *)
Theorem series_are_never_removed (name : string) (lv : labelvalues) :
  (forall (d : DataBaseProm) (m : msg),
      series d name lv <> None -> series (store d m) name lv <> None) /\
  (forall (self : GpuModule) (envs : list tick_env),
      series (db self) name lv <> None ->
      series (db (_process_gpu_stats self envs)) name lv <> None).
Proof.
  split.
  - intros d m. apply series_store_persist.
  - intros self envs.
    apply (run_fold (fun d => series d name lv <> None)).
    intros d m. apply series_store_persist.
Qed.

(** X12.  The sink matches metric names without regard to letter case and
    reads nothing of a message but its key in lower case, its two label
    values and its value: two messages that agree on these leave the same
    gauges and the same warnings. *)
Theorem store_reads_lowered_key (d : DataBaseProm) (m m' : msg) :
  Py.lower (msg_key m) = Py.lower (msg_key m') ->
  labelvalues_of m = labelvalues_of m' ->
  msg_value m = msg_value m' ->
  _metrics_map (store d m) = _metrics_map (store d m') /\
  warnings (store d m) = warnings (store d m').
Proof.
  intros Hk Hl Hv. unfold store. rewrite <- Hk, <- Hl, <- Hv.
  destruct (Dict.mem (Py.lower (msg_key m)) (_metrics_map d)).
  - destruct (Dict.get (Py.lower (msg_key m)) (_metrics_map d));
      [|split; reflexivity].
    destruct (float (msg_value m)); split; reflexivity.
  - destruct (Dict.get (Py.lower (msg_key m)) help_text); [|split; reflexivity].
    destruct (Dict.get _ (Dict.set _ _ _)); [|split; reflexivity].
    destruct (float (msg_value m)); split; reflexivity.
Qed.

End SinkProperties.

Lemma registration_invariant_witness :
  registered_from_table (db (_process_gpu_stats module_init [env_indexed; env_failing])).
Proof.
  exact (proj1 (proj2 (proj2 (@registration_invariant ExampleFloat))
                  module_init [env_indexed; env_failing]
                  (proj1 (@registration_invariant ExampleFloat)))).
Defined.

Lemma series_are_never_removed_witness :
  series (db (_process_gpu_stats (tick module_init env_indexed) [env_failing]))
    "tegrastats_gpu_freq" ("GPU_FREQ", "1") <> None.
Proof.
  refine (proj2 (@series_are_never_removed ExampleFloat
                   "tegrastats_gpu_freq" ("GPU_FREQ", "1"))
            (tick module_init env_indexed) [env_failing] _).
  vm_compute. discriminate.
Defined.

Lemma store_reads_lowered_key_witness :
  _metrics_map
    (store sink_init (GpuEvent "Tegrastats_GPU_Util" (VStr "45") "GPU_UTIL" None))
  = _metrics_map
      (store sink_init (GpuEvent "tegrastats_gpu_util" (VStr "45") "GPU_UTIL" None)).
Proof.
  exact (proj1 (@store_reads_lowered_key ExampleFloat sink_init
                  (GpuEvent "Tegrastats_GPU_Util" (VStr "45") "GPU_UTIL" None)
                  (GpuEvent "tegrastats_gpu_util" (VStr "45") "GPU_UTIL" None)
                  eq_refl eq_refl eq_refl)).
Defined.

(* ================================================================== *)
(** ** Further properties: what the sink exposes after a tick *)
(* ================================================================== *)

Section Exposed.
Context {PF : PyFloat}.

Lemma series_store_targets (d : DataBaseProm) (m : msg) name lv :
  series (store d m) name lv =
  if recognized d (Py.lower (msg_key m)) && targets m name lv
  then match float (msg_value m) with
       | Some f => Some f
       | None => match series d name lv with
                 | Some x => Some x
                 | None => Some float_zero
                 end
       end
  else series d name lv.
Proof. apply series_store. Qed.

Lemma targets_name (m : msg) name lv :
  targets m name lv = true -> Py.lower (msg_key m) = name.
Proof.
  unfold targets. intros H. apply andb_true_iff in H. destruct H as [H _].
  now apply String.eqb_eq.
Qed.

(** Messages for other series leave a series as it is. *)
Lemma fold_store_frame (evs : list msg) (d : DataBaseProm) name lv :
  Forall (fun m => targets m name lv = false) evs ->
  series (fold_left store evs d) name lv = series d name lv.
Proof.
  intros H. revert d. induction H as [|m evs Hm _ IH]; intros d; [reflexivity|].
  simpl. rewrite IH, series_store_targets, Hm, andb_false_r. reflexivity.
Qed.

(** The last message for a series decides its value. *)
Lemma fold_store_last (pre post : list msg) (m : msg) (d : DataBaseProm)
  name lv (f : float_t) :
  sink_ok d -> Dict.mem name help_text = true ->
  targets m name lv = true -> float (msg_value m) = Some f ->
  Forall (fun m' => targets m' name lv = false) post ->
  series (fold_left store (pre ++ m :: post) d) name lv = Some f.
Proof.
  intros Hd Hn Ht Hf Hpost. rewrite fold_left_app. simpl.
  rewrite (fold_store_frame post _ name lv Hpost), series_store_targets, Ht, Hf.
  rewrite (@recognized_ok _ (fold_left store pre d) (Py.lower (msg_key m))
             (@sink_ok_fold_store _ pre d Hd)).
  now rewrite (targets_name m name lv Ht), Hn.
Qed.

Lemma fold_store_zero (evs : list msg) (d : DataBaseProm) name lv :
  sink_ok d -> Dict.mem name help_text = true ->
  Forall (fun m => msg_value m = VFloat0) evs ->
  series d name lv = Some float_zero \/
  Exists (fun m => targets m name lv = true) evs ->
  series (fold_left store evs d) name lv = Some float_zero.
Proof.
  intros Hd Hn Hz. revert d Hd. induction Hz as [|m evs Hm _ IH]; intros d Hd H.
  - destruct H as [H|H]; [exact H|inversion H].
  - simpl. apply IH; [now apply sink_ok_store|].
    destruct H as [H|H].
    + left. rewrite series_store_targets, Hm, H. simpl.
      now destruct (_ && _).
    + inversion H as [? ? Ht|? ? Ht]; subst; [left|now right].
      rewrite series_store_targets, Ht, Hm, (@recognized_ok _ d _ Hd).
      now rewrite (targets_name m name lv Ht), Hn.
Qed.

Lemma zero_events_value (ms : metric_set_t) :
  Forall (fun m => msg_value m = VFloat0) (zero_events ms).
Proof.
  apply Forall_forall. intros m Hm. apply in_zero_events in Hm.
  destruct Hm as [k [ks [x [_ [_ ->]]]]]. reflexivity.
Qed.

Lemma targets_zero_event (k key : string) :
  targets (zero_event k key) (Py.lower key) (k, "0") = true.
Proof.
  unfold targets. simpl msg_key. rewrite String.eqb_refl. simpl.
  unfold labelvalues_eqb. simpl. now rewrite String.eqb_refl.
Qed.

(** X13.  The zeroing contract at the sink: when the zeroing path runs
    (called directly, or by a tick one of whose stages raises), every
    recorded pair whose metric key is a name of the help table has its
    series, with the field key as label and index 0, at value 0.0
    afterwards. *)
Theorem zeroing_sets_known_series_to_zero (self : GpuModule) (k key : string) :
  sink_ok (db self) ->
  In key (metric_keys_of k (metric_set self)) ->
  Dict.mem (Py.lower key) help_text = true ->
  series (db (_nullify_gpu_data self)) (Py.lower key) (k, "0") = Some float_zero /\
  forall env e,
    sample env = Raise e ->
    series (db (tick self env)) (Py.lower key) (k, "0") = Some float_zero.
Proof.
  intros Hd Hin Hn.
  assert (Hz : series (fold_left store (zero_events (metric_set self)) (db self))
                 (Py.lower key) (k, "0") = Some float_zero).
  { apply fold_store_zero; [exact Hd|exact Hn|apply zero_events_value|].
    right. apply Exists_exists. exists (zero_event k key).
    split; [|apply targets_zero_event].
    apply in_zero_events. unfold metric_keys_of in Hin.
    destruct (Dict.get k (metric_set self)) as [ks|] eqn:G; [|contradiction].
    exists k, ks, key.
    split; [exact (@DictFacts.get_in _ k ks (metric_set self) G)|].
    split; [exact Hin|reflexivity]. }
  split.
  - now rewrite nullify_gpu_data_effect.
  - intros env e S. rewrite db_tick. unfold tick_events. now rewrite S.
Qed.

(** *** A dispatched value is the value exposed *)

Lemma get_split {V : Type} (k : string) (v : V) (d : Dict.t V) :
  NoDup (Dict.keys d) -> Dict.get k d = Some v ->
  exists d1 d2, d = d1 ++ (k, v) :: d2 /\ ~ In k (Dict.keys d2).
Proof.
  induction d as [|[k0 v0] d IH]; simpl; intros Hnd H; [discriminate H|].
  inversion Hnd as [|? ? Hnin Hnd']; subst.
  destruct (String.eqb_spec k0 k) as [->|Hne].
  - injection H as ->. exists [], d. split; [reflexivity|exact Hnin].
  - destruct (IH Hnd' H) as [d1 [d2 [-> Hd2]]].
    exists ((k0, v0) :: d1), d2. split; [reflexivity|exact Hd2].
Qed.

(** Every observation of a field carries the field key as its label. *)
Lemma events_of_item_label (k : string) (v : sval) (m : msg) :
  In m (events_of_item k v) -> msg_label m = Some k.
Proof.
  unfold events_of_item, indexed_events.
  destruct (String.eqb_spec k "GPU_FREQ") as [->|_].
  { intros H. apply in_map_iff in H. destruct H as [[i x] [<- _]]. reflexivity. }
  destruct (String.eqb_spec k "CPU") as [->|_].
  { intros H. apply in_map_iff in H. destruct H as [[i x] [<- _]]. reflexivity. }
  destruct (Dict.get k scalar_metric_key); [|intros []].
  intros [<-|[]]. reflexivity.
Qed.

Lemma targets_other_label (m : msg) (k k' : string) name idx :
  msg_label m = Some k' -> k' <> k -> targets m name (k, idx) = false.
Proof.
  intros Hl Hne. unfold targets, labelvalues_eqb, labelvalues_of. rewrite Hl.
  simpl. destruct (String.eqb_spec k' k); [contradiction|].
  simpl. apply andb_false_r.
Qed.

Lemma events_of_items_other (b : buffer) (k : string) name idx :
  ~ In k (Dict.keys b) ->
  Forall (fun m => targets m name (k, idx) = false)
    (flat_map (fun kv => events_of_item (fst kv) (snd kv)) b).
Proof.
  intros Hn. apply Forall_forall. intros m Hm. apply in_flat_map in Hm.
  destruct Hm as [[k' v'] [Hin Hm]]. simpl in Hm.
  apply (targets_other_label m k k' name idx (events_of_item_label _ _ _ Hm)).
  intros ->. apply Hn. unfold Dict.keys. now apply (in_map fst) in Hin.
Qed.

(** The metric names of the table are in lower case, known to the sink,
    and none is the per-process name. *)
Lemma scalar_metric_key_facts (k metric_key : string) :
  Dict.get k scalar_metric_key = Some metric_key ->
  Py.lower metric_key = metric_key /\
  Dict.mem metric_key help_text = true /\
  metric_key <> "tegrastats_per_process_gpu_mem".
Proof.
  intros H. apply DictFacts.get_in in H. unfold scalar_metric_key in H.
  cbn [In] in H.
  repeat (destruct H as [[= <- <-]|H];
          [split; [reflexivity|split; [reflexivity|discriminate]]|]).
  contradiction.
Qed.

Lemma process_events_other (usage : Dict.t Z) name lv :
  name <> "tegrastats_per_process_gpu_mem" ->
  Forall (fun m => targets m name lv = false) (map process_event usage).
Proof.
  intros Hne. apply Forall_forall. intros m Hm. apply in_map_iff in Hm.
  destruct Hm as [[k n] [<- _]]. unfold targets.
  change (Py.lower (msg_key (process_event (k, n))))
    with "tegrastats_per_process_gpu_mem".
  rewrite (proj2 (String.eqb_neq _ _)) by congruence. reflexivity.
Qed.

Lemma sample_tokenize (env : tick_env) (buf : buffer) (usage : Dict.t Z) :
  sample env = Ok (buf, usage) ->
  (exists line, tokenize line = Ok buf) /\
  (exists text, _parse_per_process_gpu_stats text = Ok usage).
Proof.
  unfold sample.
  destruct (tegrastats_output env) as [line|]; simpl; [|discriminate].
  destruct (tokenize line) as [b|] eqn:T; simpl; [|discriminate].
  destruct (nvmap_clients_output env) as [text|]; simpl; [|discriminate].
  destruct (_parse_per_process_gpu_stats text) as [u|] eqn:P; simpl;
    [|discriminate].
  intros [= <- <-]. split; eauto.
Qed.

(** X14.  What a tick parsed is what the sink exposes.  After a tick
    whose stages all succeed, a field dispatched as one observation whose
    text converts to a number is exposed as that number under its metric
    name, with the field key as label and index 0, whatever else the line
    and the memory text contained; and a process amount is exposed under
    the per-process name with the process name as label. *)
Theorem dispatched_value_is_exposed (self : GpuModule) (env : tick_env)
  (buf : buffer) (usage : Dict.t Z) :
  sink_ok (db self) ->
  sample env = Ok (buf, usage) ->
  (forall k s metric_key f,
      Dict.get k buf = Some (Scalar s) ->
      Dict.get k scalar_metric_key = Some metric_key ->
      float_of_str s = Some f ->
      series (db (tick self env)) metric_key (k, "0") = Some f) /\
  (forall k n f,
      Dict.get k usage = Some n ->
      float_of_int n = Some f ->
      series (db (tick self env)) "tegrastats_per_process_gpu_mem" (k, "0")
        = Some f).
Proof.
  intros Hd S.
  destruct (sample_tokenize env buf usage S) as [[line T] [text P]].
  destruct (tokenize_well_shaped line buf T) as [Hnd _].
  destruct (proj2 (per_process_map_spec text) usage P) as [Hnu _].
  rewrite db_tick. unfold tick_events. rewrite S. unfold dispatch_events.
  split.
  - intros k s metric_key f Hk Hm Hf.
    destruct (scalar_metric_key_facts k metric_key Hm) as [Hlow [Hmem Hpp]].
    destruct (@scalar_key_not_indexed k metric_key Hm) as [H1 H2].
    destruct (get_split k (Scalar s) buf Hnd Hk) as [b1 [b2 [-> Hb2]]].
    rewrite flat_map_app. simpl flat_map.
    unfold events_of_item at 2. rewrite H1, H2, Hm. simpl app.
    rewrite <- app_assoc. simpl app.
    apply fold_store_last; try assumption.
    + unfold targets. simpl. rewrite Hlow, String.eqb_refl. simpl.
      unfold labelvalues_eqb. simpl. now rewrite String.eqb_refl.
    + apply Forall_app. split.
      * now apply events_of_items_other.
      * now apply process_events_other.
  - intros k n f Hk Hf.
    destruct (get_split k n usage Hnu Hk) as [u1 [u2 [-> Hu2]]].
    rewrite map_app. simpl map. rewrite app_assoc.
    apply fold_store_last; try assumption.
    + reflexivity.
    + unfold targets. simpl. unfold labelvalues_eqb. simpl.
      now rewrite String.eqb_refl.
    + apply Forall_forall. intros m Hm. apply in_map_iff in Hm.
      destruct Hm as [[k' n'] [<- Hin]].
      apply (targets_other_label (process_event (k', n')) k k' _ "0" eq_refl).
      intros ->. apply Hu2. unfold Dict.keys. now apply (in_map fst) in Hin.
Qed.

End Exposed.

Lemma zeroing_sets_known_series_to_zero_witness :
  series (db (tick (tick module_init env_indexed) env_failing))
    "tegrastats_gpu_util" ("GPU_UTIL", "0") = Some 0%Z.
Proof.
  refine (proj2 (@zeroing_sets_known_series_to_zero ExampleFloat
                   (tick module_init env_indexed) "GPU_UTIL" "tegrastats_gpu_util"
                   _ _ eq_refl) env_failing CollectError eq_refl).
  - rewrite (@db_tick ExampleFloat). apply (@sink_ok_fold_store ExampleFloat).
    exact (@sink_ok_init ExampleFloat).
  - vm_compute. tauto.
Defined.

Lemma dispatched_value_is_exposed_witness :
  series (db (tick module_init env_bad_value)) "tegrastats_ram_usage" ("RAM", "0")
    = Some 12%Z /\
  series (db (tick module_init env_bad_value)) "tegrastats_per_process_gpu_mem"
    ("rosie-perceptio", "0") = Some 753528%Z.
Proof.
  pose proof (@dispatched_value_is_exposed ExampleFloat module_init env_bad_value
                [("GPU_TEMP", Scalar ""); ("RAM", Scalar "12")]
                [("rosie-perceptio", 753528%Z)] sink_ok_init eq_refl) as [H1 H2].
  split.
  - exact (H1 "RAM" "12" "tegrastats_ram_usage" 12%Z eq_refl eq_refl eq_refl).
  - exact (H2 "rosie-perceptio" 753528%Z 753528%Z eq_refl eq_refl).
Defined.

(* ================================================================== *)
(** ** Further properties: the recorded pairs *)
(* ================================================================== *)

Section Recorded.
Context {PF : PyFloat}.

Lemma set_add_NoDup (x : string) (s : list string) :
  NoDup s -> NoDup (set_add x s).
Proof.
  intros H. unfold set_add. destruct (existsb (String.eqb x) s) eqn:E;
    [exact H|].
  apply NoDup_app; [exact H|repeat constructor; intros []|].
  intros y Hy [<-|[]].
  assert (existsb (String.eqb x) s = true) as E'
      by (apply existsb_exists; exists x; split;
          [exact Hy|apply String.eqb_refl]).
  congruence.
Qed.

Lemma metric_set_add_ok (k x : string) (ms : metric_set_t) :
  metric_set_ok ms -> metric_set_ok (metric_set_add k x ms).
Proof.
  intros [Hk Hs]. unfold metric_set_add. split.
  - now apply DictFacts.NoDup_keys_set.
  - intros k' ks' Hin. apply ShapeFacts.in_set in Hin.
    destruct Hin as [[= -> ->]|Hin]; [|now apply (Hs k')].
    apply set_add_NoDup. unfold metric_keys_of.
    destruct (Dict.get k ms) as [ks|] eqn:G; [|constructor].
    apply (Hs k). exact (@DictFacts.get_in _ k ks ms G).
Qed.

Lemma metric_set_fold_ok (recs : list (string * string)) (ms : metric_set_t) :
  metric_set_ok ms ->
  metric_set_ok
    (fold_left (fun ms kx => metric_set_add (fst kx) (snd kx) ms) recs ms).
Proof.
  revert ms. induction recs as [|[k x] recs IH]; intros ms H; [exact H|].
  simpl. apply IH. now apply metric_set_add_ok.
Qed.

Lemma zero_events_NoDup (ms : metric_set_t) :
  metric_set_ok ms -> NoDup (zero_events ms).
Proof.
  induction ms as [|[k ks] ms IH]; intros [Hk Hs]; [constructor|].
  simpl in Hk. inversion Hk as [|? ? Hnin Hk']; subst.
  change (zero_events ((k, ks) :: ms))
    with (map (zero_event k) ks ++ zero_events ms).
  apply NoDup_app.
  - assert (NoDup ks) as Hks by (apply (Hs k); now left).
    clear -Hks. induction Hks as [|x ks Hx _ IH]; simpl; constructor; [|exact IH].
    intros H. apply in_map_iff in H. destruct H as [y [[= ->] Hy]].
    contradiction.
  - apply IH. split; [exact Hk'|]. intros k' ks' H. apply (Hs k'). now right.
  - intros m H1 H2. apply in_map_iff in H1. destruct H1 as [x [<- _]].
    apply in_zero_events in H2. destruct H2 as [k' [ks' [x' [Hin [_ [= _ <-]]]]]].
    apply Hnin. unfold Dict.keys. now apply (in_map fst) in Hin.
Qed.

(** X15.  The recorded pairs keep the shape of a dictionary of sets: no
    field key twice and no metric key twice under a field key, from the
    start and after any run of ticks; so the zeroing path sends each
    recorded pair exactly once. *)
Theorem zeroing_sends_each_pair_once (self : GpuModule) (envs : list tick_env) :
  metric_set_ok (metric_set self) ->
  metric_set_ok (metric_set (_process_gpu_stats self envs)) /\
  NoDup (zero_events (metric_set (_process_gpu_stats self envs))).
Proof.
  intros H.
  assert (metric_set_ok (metric_set (_process_gpu_stats self envs))) as Hok.
  { revert self H. unfold _process_gpu_stats.
    induction envs as [|env envs IH]; intros self H; [exact H|].
    simpl. apply IH. rewrite metric_set_tick. now apply metric_set_fold_ok. }
  split; [exact Hok|now apply zero_events_NoDup].
Qed.

(** *** Recording again *)

Lemma set_same {V : Type} (k : string) (v : V) (d : Dict.t V) :
  Dict.get k d = Some v -> Dict.set k v d = d.
Proof.
  induction d as [|[k0 v0] d IH]; simpl; [discriminate|].
  destruct (String.eqb_spec k0 k) as [->|].
  - now intros [= ->].
  - intros H. now rewrite IH.
Qed.

Lemma metric_set_add_present (k x : string) (ms : metric_set_t) :
  In x (metric_keys_of k ms) -> metric_set_add k x ms = ms.
Proof.
  intros H. unfold metric_set_add, set_add.
  assert (existsb (String.eqb x) (metric_keys_of k ms) = true) as ->
      by (apply existsb_exists; exists x; split;
          [exact H|apply String.eqb_refl]).
  unfold metric_keys_of in *.
  destruct (Dict.get k ms) as [ks|] eqn:G; [|contradiction].
  now apply set_same.
Qed.

Lemma fold_add_present (recs : list (string * string)) (ms : metric_set_t) :
  (forall k x, In (k, x) recs -> In x (metric_keys_of k ms)) ->
  fold_left (fun ms kx => metric_set_add (fst kx) (snd kx) ms) recs ms = ms.
Proof.
  induction recs as [|[k x] recs IH]; intros H; [reflexivity|].
  simpl. rewrite metric_set_add_present by (apply H; now left).
  apply IH. intros k' x' Hin. apply H. now right.
Qed.

(** X16.  Recording reaches a fixed point: a tick that receives the same
    outputs as the tick before it leaves the recorded pairs exactly as
    they are, so the set stays as large as the number of distinct series
    seen, however long the loop runs. *)
Theorem same_sample_records_nothing_new (self : GpuModule) (env : tick_env) :
  metric_set (tick (tick self env) env) = metric_set (tick self env).
Proof.
  rewrite (metric_set_tick (tick self env) env).
  apply fold_add_present. intros k x Hin.
  rewrite metric_set_tick. now apply in_fold_add.
Qed.

(** X17.  Before anything was recorded, failing ticks send nothing: from
    a module with no recorded pair, any run of ticks each of which fails
    in a stage before dispatch leaves the sink exactly as it was, with no
    call of [store] at all, and records nothing. *)
Theorem failing_ticks_before_first_success (self : GpuModule)
  (envs : list tick_env) :
  metric_set self = [] ->
  Forall (fun env => exists e, sample env = Raise e) envs ->
  db (_process_gpu_stats self envs) = db self /\
  metric_set (_process_gpu_stats self envs) = [].
Proof.
  intros Hm H. revert self Hm. unfold _process_gpu_stats.
  induction H as [|env envs [e He] _ IH]; intros self Hm; [now split|].
  simpl.
  assert (db (tick self env) = db self) as Hdb
      by (rewrite db_tick; unfold tick_events; now rewrite He, Hm).
  assert (metric_set (tick self env) = []) as Hms
      by (rewrite metric_set_tick; unfold tick_records; now rewrite He).
  destruct (IH (tick self env) Hms) as [H1 H2].
  split; [now rewrite H1|exact H2].
Qed.

(** *** The per-cluster branch *)

Lemma nth_error_enumerate_from {A} (l : list A) (n i : nat) (x : A) :
  nth_error l i = Some x -> nth_error (enumerate_from n l) i = Some (n + i, x).
Proof.
  revert n i. induction l as [|a l IH]; intros n [|i]; simpl;
    try discriminate.
  - intros [= ->]. now rewrite Nat.add_0_r.
  - intros H. rewrite (IH (S n) i H). f_equal. f_equal. lia.
Qed.

Lemma length_enumerate_from {A} (l : list A) (n : nat) :
  length (enumerate_from n l) = length l.
Proof.
  revert n. induction l as [|a l IH]; intros n; simpl; [reflexivity|].
  now rewrite IH.
Qed.

(** X18.  For a [GPU_FREQ] value the dispatcher sends exactly one
    observation per cluster, in order: the one at position [i] carries the
    frequency text of cluster [i], the field key as label and [i] as
    index, and the pair recorded for it is the metric name with [_i]
    appended. *)
Theorem gpu_freq_dispatch (self : GpuModule) (v : sval) :
  exists sent,
    received (db (produce_item self "GPU_FREQ" v)) = received (db self) ++ sent /\
    length sent = length (elements v) /\
    forall i x,
      nth_error (elements v) i = Some x ->
      nth_error sent i =
        Some (GpuEvent "tegrastats_gpu_freq" (VStr x) "GPU_FREQ"
                (Some (Z.of_nat i))) /\
      In ("tegrastats_gpu_freq_" ++ Py.str (Z.of_nat i))%string
         (metric_keys_of "GPU_FREQ"
            (metric_set (produce_item self "GPU_FREQ" v))).
Proof.
  exists (indexed_events "tegrastats_gpu_freq" "GPU_FREQ" (enumerate (elements v))).
  rewrite produce_item_effect.
  change (events_of_item "GPU_FREQ" v)
    with (indexed_events "tegrastats_gpu_freq" "GPU_FREQ" (enumerate (elements v))).
  change (records_of_item "GPU_FREQ" v)
    with (indexed_records "GPU_FREQ" "tegrastats_gpu_freq_"
            (enumerate (elements v))).
  split; [apply received_effect|]. split.
  - unfold indexed_events, enumerate.
    now rewrite length_map, length_enumerate_from.
  - intros i x Hx.
    pose proof (nth_error_enumerate_from (elements v) 0 i x Hx) as Hn.
    simpl in Hn. split.
    + unfold indexed_events, enumerate. now rewrite nth_error_map, Hn.
    + rewrite metric_set_effect. apply in_fold_add.
      unfold indexed_records, enumerate. apply in_map_iff.
      exists (i, x). split; [reflexivity|]. now apply nth_error_In in Hn.
Qed.

End Recorded.

Lemma zeroing_sends_each_pair_once_witness :
  NoDup (zero_events
           (metric_set (_process_gpu_stats module_init [env_indexed; env_indexed]))).
Proof.
  refine (proj2 (@zeroing_sends_each_pair_once ExampleFloat module_init
                   [env_indexed; env_indexed] _)).
  split; [constructor|intros k ks []].
Defined.

Lemma failing_ticks_before_first_success_witness :
  db (_process_gpu_stats module_init [env_failing; env_failing]) = db module_init.
Proof.
  refine (proj1 (@failing_ticks_before_first_success ExampleFloat module_init
                   [env_failing; env_failing] eq_refl _)).
  repeat constructor; exists CollectError; reflexivity.
Defined.

Lemma gpu_freq_dispatch_witness :
  In "tegrastats_gpu_freq_1"
     (metric_keys_of "GPU_FREQ"
        (metric_set (produce_item module_init "GPU_FREQ" (Seq ["204"; "306"])))).
Proof.
  destruct (@gpu_freq_dispatch ExampleFloat module_init (Seq ["204"; "306"]))
    as [sent [_ [_ H]]].
  exact (proj2 (H 1 "306" eq_refl)).
Defined.

(* ================================================================== *)
(** ** Further properties: the indexed series *)
(* ================================================================== *)

Section Indexed.
Context {PF : PyFloat}.

(** [str] gives different texts for different integers. *)
Lemma str_inj (z1 z2 : Z) : Py.str z1 = Py.str z2 -> z1 = z2.
Proof.
  unfold Py.str. intros H.
  assert (Hn : forall z, Z.to_int z <> Decimal.Pos Decimal.Nil /\
                         Z.to_int z <> Decimal.Neg Decimal.Nil).
  { intros [|p|p]; simpl; split; try discriminate; intros [= E];
      exact (DecimalPos.Unsigned.to_uint_nonnil p E). }
  apply DecimalZ.to_int_inj.
  pose proof (NilZero.isi (Z.to_int z1) (proj1 (Hn z1)) (proj2 (Hn z1))) as E1.
  pose proof (NilZero.isi (Z.to_int z2) (proj1 (Hn z2)) (proj2 (Hn z2))) as E2.
  rewrite H in E1. congruence.
Qed.

Lemma targets_other_index (m : msg) (k : string) (i j : nat) name :
  msg_index m = Some (Z.of_nat j) -> j <> i ->
  targets m name (k, Py.str (Z.of_nat i)) = false.
Proof.
  intros Hi Hne. unfold targets, labelvalues_eqb, labelvalues_of. rewrite Hi.
  simpl. destruct (String.eqb_spec (Py.str (Z.of_nat j)) (Py.str (Z.of_nat i)))
    as [E|]; [|now rewrite !andb_false_r].
  apply str_inj in E. lia.
Qed.

Lemma indexed_events_other (name label k : string) (i : nat)
  (L : list (nat * string)) target :
  (forall x, ~ In (i, x) L) ->
  Forall (fun m => targets m target (k, Py.str (Z.of_nat i)) = false)
    (indexed_events name label L).
Proof.
  intros H. apply Forall_forall. intros m Hm. unfold indexed_events in Hm.
  apply in_map_iff in Hm. destruct Hm as [[j y] [<- Hin]].
  apply (targets_other_index (GpuEvent name (VStr y) label (Some (Z.of_nat j)))
           k i j target eq_refl).
  intros ->. exact (H y Hin).
Qed.

Lemma NoDup_fst_enumerate_from {A} (l : list A) (n : nat) :
  NoDup (map fst (enumerate_from n l)).
Proof.
  revert n. induction l as [|a l IH]; intros n; simpl; constructor; [|apply IH].
  intros H. apply in_map_iff in H. destruct H as [[j y] [Hj Hin]].
  simpl in Hj. subst j. apply in_enumerate_from in Hin. lia.
Qed.

Lemma NoDup_fst_filter {A B} (p : A * B -> bool) (L : list (A * B)) :
  NoDup (map fst L) -> NoDup (map fst (filter p L)).
Proof.
  induction L as [|a L IH]; simpl; intros H; [constructor|].
  inversion H as [|? ? Hn Hd]; subst.
  destruct (p a); simpl; [constructor|]; auto.
  intros Hin. apply Hn. apply in_map_iff in Hin.
  destruct Hin as [b [Hb Hf]]. apply filter_In in Hf.
  apply in_map_iff. exists b. tauto.
Qed.

Lemma split_at_index {B} (i : nat) (x : B) (L : list (nat * B)) :
  NoDup (map fst L) -> In (i, x) L ->
  exists L1 L2, L = L1 ++ (i, x) :: L2 /\ forall y, ~ In (i, y) L2.
Proof.
  intros Hnd Hin. apply in_split in Hin. destruct Hin as [L1 [L2 ->]].
  exists L1, L2. split; [reflexivity|]. intros y Hy.
  rewrite map_app in Hnd. simpl in Hnd. apply NoDup_remove_2 in Hnd.
  apply Hnd. apply in_or_app. right.
  change i with (fst (i, y)). now apply in_map.
Qed.

Lemma get_split_first {V : Type} (k : string) (v : V) (d : Dict.t V) :
  Dict.get k d = Some v ->
  exists d1 d2, d = d1 ++ (k, v) :: d2 /\ ~ In k (Dict.keys d1).
Proof.
  induction d as [|[k0 v0] d IH]; simpl; intros H; [discriminate H|].
  destruct (String.eqb_spec k0 k) as [->|Hne].
  - injection H as ->. exists [], d. split; [reflexivity|intros []].
  - destruct (IH H) as [d1 [d2 [-> Hd1]]].
    exists ((k0, v0) :: d1), d2. split; [reflexivity|].
    simpl. intros [E|E]; [congruence|contradiction].
Qed.

(** The series of one position of an indexed field after a successful
    tick: the value sent for that position, if one was sent; otherwise
    the value it had. *)
Lemma indexed_series_after_tick (self : GpuModule) (env : tick_env)
  (buf : buffer) (usage : Dict.t Z) (K name : string) (v : sval)
  (L : list (nat * string)) (i : nat) :
  sink_ok (db self) ->
  sample env = Ok (buf, usage) ->
  Dict.get K buf = Some v ->
  events_of_item K v = indexed_events name K L ->
  NoDup (map fst L) ->
  Py.lower name = name -> Dict.mem name help_text = true ->
  name <> "tegrastats_per_process_gpu_mem" ->
  (forall x f, In (i, x) L -> float_of_str x = Some f ->
               series (db (tick self env)) name (K, Py.str (Z.of_nat i)) = Some f) /\
  ((forall x, ~ In (i, x) L) ->
   series (db (tick self env)) name (K, Py.str (Z.of_nat i)) =
   series (db self) name (K, Py.str (Z.of_nat i))).
Proof.
  intros Hd S Hk Hev HL Hlow Hmem Hpp.
  destruct (sample_tokenize env buf usage S) as [[line T] _].
  destruct (tokenize_well_shaped line buf T) as [Hnd _].
  destruct (get_split K v buf Hnd Hk) as [b1 [b2 [E Hb2]]].
  destruct (get_split_first K v buf Hk) as [b1' [b2' [E' Hb1]]].
  assert (b1' = b1 /\ b2' = b2) as [-> ->].
  { subst buf. clear -E' Hb1 Hb2 Hnd. revert b1' E' Hb1.
    induction b1 as [|[k0 v0] b1 IH]; intros [|[k1 v1] b1'] E' Hb1; simpl in *.
    - injection E' as <-. now split.
    - injection E' as <- <- E'. exfalso. apply Hb1. now left.
    - injection E' as -> -> E'. exfalso.
      inversion Hnd as [|? ? Hn _]. apply Hn. unfold Dict.keys.
      rewrite map_app. apply in_or_app. right. now left.
    - injection E' as <- <- E'. inversion Hnd as [|? ? _ Hnd'].
      destruct (IH Hnd' b1' E') as [-> ->]; [tauto|now split]. }
  clear E'. subst buf.
  rewrite db_tick. unfold tick_events. rewrite S. unfold dispatch_events.
  rewrite flat_map_app. simpl flat_map. rewrite Hev.
  split.
  - intros x f Hin Hf.
    destruct (split_at_index i x L HL Hin) as [L1 [L2 [-> HL2]]].
    unfold indexed_events at 1. rewrite map_app. simpl map.
    rewrite <- !app_assoc. simpl app. rewrite app_assoc.
    apply fold_store_last; try assumption.
    + unfold targets. simpl. rewrite Hlow, String.eqb_refl. simpl.
      unfold labelvalues_eqb. simpl. now rewrite !String.eqb_refl.
    + apply Forall_app. split; [now apply indexed_events_other|].
      apply Forall_app. split;
        [now apply events_of_items_other|now apply process_events_other].
  - intros Hno. apply fold_store_frame. rewrite <- !app_assoc.
    apply Forall_app. split; [now apply events_of_items_other|].
    apply Forall_app. split; [now apply indexed_events_other|].
    apply Forall_app. split;
      [now apply events_of_items_other|now apply process_events_other].
Qed.

(** X19.  After a tick whose stages all succeed, the frequency of
    cluster [i] is exposed under [tegrastats_gpu_freq] with index [i], and
    the load of a core [i] that is not [off] under [tegrastats_cpu_usage]
    with index [i], when their texts convert to numbers; positions with
    different numbers never share a series.  A core reported [off] gets
    no observation: its series keeps the value it had before the tick. *)
Theorem indexed_values_are_exposed (self : GpuModule) (env : tick_env)
  (buf : buffer) (usage : Dict.t Z) (l : list string) (i : nat) :
  sink_ok (db self) ->
  sample env = Ok (buf, usage) ->
  (Dict.get "GPU_FREQ" buf = Some (Seq l) ->
   forall x f, nth_error l i = Some x -> float_of_str x = Some f ->
     series (db (tick self env)) "tegrastats_gpu_freq"
       ("GPU_FREQ", Py.str (Z.of_nat i)) = Some f) /\
  (Dict.get "CPU" buf = Some (Seq l) ->
   (forall x f, nth_error l i = Some x -> x <> "off" -> float_of_str x = Some f ->
      series (db (tick self env)) "tegrastats_cpu_usage"
        ("CPU", Py.str (Z.of_nat i)) = Some f) /\
   (nth_error l i = Some "off" ->
    series (db (tick self env)) "tegrastats_cpu_usage"
      ("CPU", Py.str (Z.of_nat i)) =
    series (db self) "tegrastats_cpu_usage" ("CPU", Py.str (Z.of_nat i)))).
Proof.
  intros Hd S. split.
  - intros Hk x f Hx Hf.
    refine (proj1 (indexed_series_after_tick self env buf usage "GPU_FREQ"
                     "tegrastats_gpu_freq" (Seq l) (enumerate l) i
                     Hd S Hk eq_refl (NoDup_fst_enumerate_from l 0)
                     eq_refl eq_refl ltac:(discriminate)) x f _ Hf).
    apply in_enumerate_from. rewrite Nat.sub_0_r. split; [lia|exact Hx].
  - intros Hk.
    pose proof (indexed_series_after_tick self env buf usage "CPU"
                  "tegrastats_cpu_usage" (Seq l) (cores_on (Seq l)) i
                  Hd S Hk eq_refl
                  (NoDup_fst_filter _ _ (NoDup_fst_enumerate_from l 0))
                  eq_refl eq_refl ltac:(discriminate)) as [H1 H2].
    split.
    + intros x f Hx Hoff Hf. apply (H1 x f); [|exact Hf].
      apply in_cores_on. now split.
    + intros Hx. apply H2. intros y Hy. apply in_cores_on in Hy.
      destruct Hy as [Hy Hoff]. simpl in Hy. congruence.
Qed.

End Indexed.

Lemma indexed_values_are_exposed_witness :
  series (db (tick module_init env_indexed)) "tegrastats_gpu_freq" ("GPU_FREQ", "1")
    = Some 204000000%Z /\
  series (db (tick module_init env_indexed)) "tegrastats_cpu_usage" ("CPU", "1")
    = None.
Proof.
  pose proof (@indexed_values_are_exposed ExampleFloat module_init env_indexed
                [("GPU_UTIL", Scalar "45");
                 ("GPU_FREQ", Seq ["204000000"; "204000000"]);
                 ("CPU", Seq ["10"; "off"; "30"])]
                [("rosie-perceptio", 753528%Z)]) as H.
  split.
  - exact (proj1 (H ["204000000"; "204000000"] 1 sink_ok_init eq_refl) eq_refl
             "204000000" 204000000%Z eq_refl eq_refl).
  - exact (proj2 (proj2 (H ["10"; "off"; "30"] 1 sink_ok_init eq_refl) eq_refl)
             eq_refl).
Defined.

(* ================================================================== *)
(** ** Further properties: what the zeroing path leaves alone *)
(* ================================================================== *)

Section ZeroingFrame.
Context {PF : PyFloat}.

Lemma in_metric_set_add (k x k' x' : string) ks' (ms : metric_set_t) :
  In (k', ks') (metric_set_add k x ms) -> In x' ks' ->
  (k', x') = (k, x) \/ exists ks0, In (k', ks0) ms /\ In x' ks0.
Proof.
  unfold metric_set_add. intros Hin Hx. apply ShapeFacts.in_set in Hin.
  destruct Hin as [[= -> ->]|Hin]; [|right; now exists ks'].
  apply in_set_add in Hx. destruct Hx as [->|Hx]; [now left|right].
  unfold metric_keys_of in Hx.
  destruct (Dict.get k ms) as [ks0|] eqn:G; [|contradiction].
  exists ks0. split; [exact (@DictFacts.get_in _ k ks0 ms G)|exact Hx].
Qed.

Lemma in_fold_add_inv (recs : list (string * string)) (ms : metric_set_t)
  k' ks' x' :
  In (k', ks')
     (fold_left (fun ms kx => metric_set_add (fst kx) (snd kx) ms) recs ms) ->
  In x' ks' ->
  In (k', x') recs \/ exists ks0, In (k', ks0) ms /\ In x' ks0.
Proof.
  revert ms. induction recs as [|[k x] recs IH]; intros ms Hin Hx; simpl in *.
  - right. now exists ks'.
  - destruct (IH _ Hin Hx) as [H|[ks0 [H1 H2]]]; [left; now right|].
    destruct (in_metric_set_add k x k' x' ks0 ms H1 H2) as [E|E];
      [left; left; congruence|now right].
Qed.

Lemma indexed_record_name (prefix_ : string) (L : list (nat * string)) label k x :
  In (k, x) (indexed_records label prefix_ L) ->
  exists i, x = (prefix_ ++ Py.str (Z.of_nat i))%string.
Proof.
  unfold indexed_records. intros H. apply in_map_iff in H.
  destruct H as [[i y] [[= _ <-] _]]. now exists i.
Qed.

Lemma lower_app (a b : string) :
  Py.lower (a ++ b) = (Py.lower a ++ Py.lower b)%string.
Proof. induction a as [|c a IH]; simpl; [reflexivity|now rewrite IH]. Qed.

(** What the dispatcher records is never the bare name of an indexed
    gauge. *)
Lemma dispatch_records_names (buf : buffer) (usage : Dict.t Z) k x :
  In (k, x) (dispatch_records buf usage) ->
  Py.lower x <> "tegrastats_gpu_freq" /\ Py.lower x <> "tegrastats_cpu_usage".
Proof.
  unfold dispatch_records. rewrite in_app_iff, in_flat_map, in_map_iff.
  intros [[[k0 v0] [_ H]]|[[k0 n0] [[= _ <-] _]]];
    [|split; discriminate].
  simpl in H. unfold records_of_item in H.
  destruct (k0 =? "GPU_FREQ").
  { apply indexed_record_name in H. destruct H as [i ->].
    rewrite lower_app. split; discriminate. }
  destruct (k0 =? "CPU").
  { apply indexed_record_name in H. destruct H as [i ->].
    rewrite lower_app. split; discriminate. }
  destruct (Dict.get k0 scalar_metric_key) as [mk|] eqn:G; [|contradiction].
  destruct H as [[= _ <-]|[]].
  apply DictFacts.get_in in G. unfold scalar_metric_key in G. cbn [In] in G.
  repeat (destruct G as [[= _ <-]|G]; [split; discriminate|]).
  contradiction.
Qed.

Lemma no_indexed_name_tick (self : GpuModule) (env : tick_env) :
  no_indexed_name (metric_set self) ->
  no_indexed_name (metric_set (tick self env)).
Proof.
  intros H k ks x Hin Hx. rewrite metric_set_tick in Hin.
  destruct (in_fold_add_inv _ _ k ks x Hin Hx) as [Hr|[ks0 [H1 H2]]].
  - unfold tick_records in Hr.
    destruct (sample env) as [[buf usage]|]; [|contradiction].
    exact (dispatch_records_names buf usage k x Hr).
  - exact (H k ks0 x H1 H2).
Qed.

Lemma zero_events_miss (ms : metric_set_t) name lv :
  no_indexed_name ms ->
  name = "tegrastats_gpu_freq" \/ name = "tegrastats_cpu_usage" ->
  Forall (fun m => targets m name lv = false) (zero_events ms).
Proof.
  intros H Hn. apply Forall_forall. intros m Hm. apply in_zero_events in Hm.
  destruct Hm as [k [ks [x [Hin [Hx ->]]]]].
  destruct (H k ks x Hin Hx) as [H1 H2]. unfold targets. simpl msg_key.
  destruct (String.eqb_spec (Py.lower x) name) as [E|]; [|reflexivity].
  destruct Hn; congruence.
Qed.

(** X20.  The zeroing path never changes a per-cluster or per-core
    series.  Starting from a module that recorded nothing, after any run
    of ticks no recorded metric key is the name [tegrastats_gpu_freq] or
    [tegrastats_cpu_usage]; hence the zeroing path, and with it every
    failing tick, leaves every series of these two gauges at the value it
    had, whatever its labels. *)
Theorem zeroing_never_reaches_indexed_series (self : GpuModule)
  (envs : list tick_env) (name : string) (lv : labelvalues) :
  metric_set self = [] ->
  name = "tegrastats_gpu_freq" \/ name = "tegrastats_cpu_usage" ->
  let now := _process_gpu_stats self envs in
  series (db (_nullify_gpu_data now)) name lv = series (db now) name lv /\
  forall env e, sample env = Raise e ->
                series (db (tick now env)) name lv = series (db now) name lv.
Proof.
  intros Hm Hn now.
  assert (Hinv : no_indexed_name (metric_set now)).
  { subst now. unfold _process_gpu_stats.
    assert (no_indexed_name (metric_set self)) as H0
        by (rewrite Hm; intros k ks x []).
    clear Hm. revert self H0.
    induction envs as [|env envs IH]; intros self H0; [exact H0|].
    simpl. apply IH. now apply no_indexed_name_tick. }
  pose proof (fold_store_frame (zero_events (metric_set now)) (db now) name lv
                (zero_events_miss (metric_set now) name lv Hinv Hn)) as Hf.
  split.
  - now rewrite nullify_gpu_data_effect.
  - intros env e S. rewrite db_tick. unfold tick_events. now rewrite S.
Qed.

End ZeroingFrame.

Lemma zeroing_never_reaches_indexed_series_witness :
  series (db (tick (_process_gpu_stats module_init [env_indexed]) env_failing))
    "tegrastats_gpu_freq" ("GPU_FREQ", "0")
  = series (db (_process_gpu_stats module_init [env_indexed]))
      "tegrastats_gpu_freq" ("GPU_FREQ", "0").
Proof.
  exact (proj2 (@zeroing_never_reaches_indexed_series ExampleFloat module_init
                  [env_indexed] "tegrastats_gpu_freq" ("GPU_FREQ", "0")
                  eq_refl (or_introl eq_refl))
           env_failing CollectError eq_refl).
Defined.
